(** * inference_gfpgan: the batch face-restoration driver

    A shallow embedding of [run_main] from [inference_gfpgan.py] and of the
    Python library calls it makes on paths and strings, followed by the
    properties of the driver: input enumeration, background upsampler set-up,
    model selection, weight resolution, per-image artifact lay-out and the
    returned path. *)

From Stdlib Require Import String Ascii List Bool Arith ZArith QArith Lia.
From Stdlib Require Import Sorting.Sorted Sorting.Permutation.
From Stdlib Require Import DecimalString DecimalNat.
Import ListNotations.

Close Scope Q_scope.
Local Open Scope list_scope.
Local Open Scope string_scope.

(** ** Python [str] operations *)

Module PyStr.

(** [s[n:]] for [0 <= n]. *)
Fixpoint drop (n : nat) (s : string) : string :=
  match n, s with
  | O, _ => s
  | S _, EmptyString => EmptyString
  | S k, String _ t => drop k t
  end.

(** [s[:n]] for [0 <= n]. *)
Fixpoint take (n : nat) (s : string) : string :=
  match n, s with
  | O, _ => EmptyString
  | S _, EmptyString => EmptyString
  | S k, String a t => String a (take k t)
  end.

(** [s[:-1]]. *)
Fixpoint drop_last (s : string) : string :=
  match s with
  | EmptyString => EmptyString
  | String a EmptyString => EmptyString
  | String a t => String a (drop_last t)
  end.

(** [s.startswith(c)] for a one-character [c]. *)
Definition startswith (s : string) (c : ascii) : bool :=
  match s with
  | EmptyString => false
  | String a _ => Ascii.eqb a c
  end.

(** [s.endswith(c)] for a one-character [c]. *)
Fixpoint endswith (s : string) (c : ascii) : bool :=
  match s with
  | EmptyString => false
  | String a EmptyString => Ascii.eqb a c
  | String _ t => endswith t c
  end.

(** Position of the last occurrence of [c], if any. *)
Fixpoint rfind_opt (c : ascii) (s : string) : option nat :=
  match s with
  | EmptyString => None
  | String a t =>
      match rfind_opt c t with
      | Some i => Some (S i)
      | None => if Ascii.eqb a c then Some O else None
      end
  end.

(** [s.rfind(c)]: the highest index of [c], or [-1]. *)
Definition rfind (s : string) (c : ascii) : Z :=
  match rfind_opt c s with
  | Some i => Z.of_nat i
  | None => (-1)%Z
  end.

(** [c in s]. *)
Fixpoint contains (c : ascii) (s : string) : bool :=
  match s with
  | EmptyString => false
  | String a t => Ascii.eqb a c || contains c t
  end.

(** [s[i:i+1] != c], the one-character slice being empty out of range. *)
Definition char_at_differs (s : string) (i : nat) (c : ascii) : bool :=
  match String.get i s with
  | Some a => negb (Ascii.eqb a c)
  | None => true
  end.

(** [str(n)] for a natural number. *)
Definition of_nat (n : nat) : string :=
  NilZero.string_of_uint (Nat.to_uint n).

(** [f'{n:02d}']: decimal, padded with zeros on the left to width 2. *)
Definition format_02d (n : nat) : string :=
  let d := of_nat n in
  if (String.length d <? 2)%nat then String.append (String "0" EmptyString) d else d.

(** The order [sorted] uses on strings: [a <= b] by code points. *)
Definition le (a b : string) : Prop := String.leb a b = true.

(** [sorted(l)] on strings: ascending in the code-point order
    [String.leb]. Equal keys are equal strings, so any sorting algorithm
    computes the same list; insertion is used here. *)
Fixpoint insert (x : string) (l : list string) : list string :=
  match l with
  | [] => [x]
  | y :: t => if String.leb x y then x :: l else y :: insert x t
  end.

Fixpoint sorted (l : list string) : list string :=
  match l with
  | [] => []
  | x :: t => insert x (sorted t)
  end.

End PyStr.

(** ** [os.path] on POSIX *)

Module OsPath.

Definition sep : ascii := "/"%char.
Definition extsep : ascii := "."%char.

(** [posixpath.join(a, b)]: an absolute [b] replaces [a]; otherwise the
    two are glued, with a separator unless [a] is empty or ends in one. *)
Definition join (a b : string) : string :=
  if PyStr.startswith b sep then b
  else if (String.length a =? 0)%nat || PyStr.endswith a sep then a ++ b
  else a ++ String sep b.

(** [posixpath.join(a, b, c)]: the same step, folded over the parts. *)
Definition join3 (a b c : string) : string := join (join a b) c.

(** [posixpath.basename(p)]: [i = p.rfind('/') + 1; return p[i:]]. *)
Definition basename (p : string) : string :=
  let i := (PyStr.rfind p sep + 1)%Z in
  PyStr.drop (Z.to_nat i) p.

(** The loop of [genericpath._splitext] that skips leading dots: it
    walks [filenameIndex] up to [dotIndex] and reports whether some
    character on the way is not a dot. [n] counts the remaining
    iterations, [dotIndex - filenameIndex]. *)
Fixpoint skip_leading_dots (p : string) (filenameIndex n : nat) : bool :=
  match n with
  | O => false
  | S k =>
      if PyStr.char_at_differs p filenameIndex extsep then true
      else skip_leading_dots p (S filenameIndex) k
  end.

(** [posixpath.splitext(p)]. *)
Definition splitext (p : string) : string * string :=
  let sepIndex := PyStr.rfind p sep in
  let dotIndex := PyStr.rfind p extsep in
  if (sepIndex <? dotIndex)%Z then
    let filenameIndex := Z.to_nat (sepIndex + 1) in
    if skip_leading_dots p filenameIndex (Z.to_nat dotIndex - filenameIndex)
    then (PyStr.take (Z.to_nat dotIndex) p, PyStr.drop (Z.to_nat dotIndex) p)
    else (p, EmptyString)
  else (p, EmptyString).

End OsPath.

(** ** Values, exceptions and effects *)

(** An image array: read from disk or produced by the engine ([Pixels],
    identified by a tag), or two arrays put side by side by
    [np.concatenate((a, b), axis=1)]. *)
Inductive Image : Type :=
| Pixels (tag : nat)
| Concatenate (a b : Image).

(** The Python exceptions that can leave [run_main]. [EngineError] stands
    for whatever the restoration engine raises from [enhance]; [OSError]
    (of which [IOError] is an alias) and [Cv2Error] come from the file
    system and from the codecs of [cv2]. *)
Inductive PyExn : Type :=
| ValueError (msg : string)
| UnboundLocalError (name : string)
| EngineError (msg : string)
| OSError (msg : string)
| Cv2Error (msg : string).

Module RRDBNet.
Record t : Type := mk
  { num_in_ch : Z; num_out_ch : Z; num_feat : Z; num_block : Z;
    num_grow_ch : Z; scale : Z }.
End RRDBNet.

Module RealESRGANer.
Record t : Type := mk
  { scale : Z; model_path : string; model : RRDBNet.t; tile : Z;
    tile_pad : Z; pre_pad : Z; half : bool }.
End RealESRGANer.

Module GFPGANer.
Record t : Type := mk
  { model_path : string; upscale : Z; arch : string;
    channel_multiplier : Z; bg_upsampler : option RealESRGANer.t }.
End GFPGANer.

(** What [restorer.enhance] returns:
    [(cropped_faces, restored_faces, restored_img)]. *)
Definition EnhanceResult : Type := (list Image * list Image * option Image)%type.

(** The observable actions of a run, in program order. *)
Inductive Event : Type :=
| Makedirs (path : string)
| Warn (msg : string)
| Debug (msg : string)
| NewRestorer (r : GFPGANer.t)
| Imread (path : string)
| Enhance (input_img : option Image)
          (has_aligned only_center_face paste_back : bool) (weight : Q)
| Imwrite (img : Image) (path : string).

(** What the run reads from its environment. The file system and the
    device are fixed for the duration of a run; [os.makedirs] and [imwrite]
    are recorded as events and taken to succeed. [cv2_imread] yields [None]
    for a file it cannot decode, as [cv2.imread] does. [enhance] is the
    method of the engine of [common.shared.GFPGAN.gfpgan], which is not part
    of this file: it either raises or returns. *)
Record World : Type :=
  { os_path_isfile : string -> bool;
    glob_glob : string -> list string;
    torch_cuda_is_available : bool;
    cv2_imread : string -> option Image;
    enhance : GFPGANer.t -> option Image -> bool -> bool -> bool -> Q ->
              PyExn + EnhanceResult }.

(** The [args] dictionary of [run_main]. *)
Record Args : Type :=
  { input : string;
    output : string;
    version : string;
    upscale : Z;
    bg_upsampler : string;
    bg_tile : Z;
    suffix : option string;
    only_center_face : bool;
    aligned : bool;
    ext : string;
    weight : Q }.

(** ** A trace-and-exception monad *)

Definition M (A : Type) : Type := (list Event * (PyExn + A))%type.

Definition ret {A : Type} (a : A) : M A := ([], inr a).

Definition bind {A B : Type} (m : M A) (k : A -> M B) : M B :=
  match m with
  | (t, inl e) => (t, inl e)
  | (t, inr a) => let (t', r) := k a in ((t ++ t')%list, r)
  end.

Definition raise {A : Type} (e : PyExn) : M A := ([], inl e).

Definition emit (ev : Event) : M unit := ([ev], inr tt).

Definition trace {A : Type} (m : M A) : list Event := fst m.

Definition outcome {A : Type} (m : M A) : PyExn + A := snd m.

Declare Scope py_scope.
Delimit Scope py_scope with py.
Notation "x <- m ;; k" := (bind m (fun x => k))
  (at level 61, m at next level, right associativity) : py_scope.
Notation "' p <- m ;; k" := (bind m (fun x => match x with p => k end))
  (at level 61, p pattern, m at next level, right associativity) : py_scope.
Notation "m ;; k" := (bind m (fun _ => k))
  (at level 61, right associativity) : py_scope.
Local Open Scope py_scope.

(** [for x in l: s = body(x, s)], [s] being the variables the body
    assigns that are read after the loop. *)
Fixpoint for_in {A S : Type} (l : list A) (s : S) (body : A -> S -> M S) : M S :=
  match l with
  | [] => ret s
  | x :: rest => s' <- body x s ;; for_in rest s' body
  end.

(** [enumerate(l)], counting from [start]. *)
Fixpoint enumerate_from {A : Type} (start : nat) (l : list A) : list (nat * A) :=
  match l with
  | [] => []
  | x :: rest => (start, x) :: enumerate_from (S start) rest
  end.

Definition enumerate {A : Type} (l : list A) : list (nat * A) := enumerate_from 0 l.

(** [zip(a, b)]. *)
Definition zip {A B : Type} (a : list A) (b : list B) : list (A * B) := combine a b.

(** [imwrite] on a host that accepts the write; the module [Io] below has
    the call with its failures. *)
Definition imwrite (img : Image) (file_path : string) : M unit :=
  emit (Imwrite img file_path).

(** ** [run_main] *)

Section Run.

Variable w : World.

(** The [input & output] block: the input path the run works on. *)
Definition normalized_input (args : Args) : string :=
  if PyStr.endswith (input args) "/" then PyStr.drop_last (input args)
  else input args.

(** The [input & output] block: the list of images to process. *)
Definition img_list (args : Args) : list string :=
  let input' := normalized_input args in
  if os_path_isfile w input' then [input']
  else PyStr.sorted (glob_glob w (OsPath.join input' "*")).

Definition cpu_warning : string :=
  "The unoptimized RealESRGAN is slow on CPU. We do not use it. " ++
  "If you really want to use it, please modify the corresponding codes.".

Definition realesrgan_url : string :=
  "https://github.com/xinntao/Real-ESRGAN/releases/download/v0.2.1/RealESRGAN_x2plus.pth".

(** The [set up background upsampler] block. *)
Definition set_up_bg_upsampler (args : Args) : M (option RealESRGANer.t) :=
  if bg_upsampler args =? "realesrgan" then
    if negb (torch_cuda_is_available w) then
      emit (Warn cpu_warning) ;;
      ret None
    else
      let model := RRDBNet.mk 3 3 64 23 32 2 in
      ret (Some (RealESRGANer.mk 2 realesrgan_url model (bg_tile args) 10 0 true))
  else ret None.

(** The four variables the version dispatch assigns. *)
Record ModelChoice : Type :=
  { arch : string; channel_multiplier : Z; model_name : string; url : string }.

(** The [set up GFPGAN restorer] block: dispatch on [args['version']]. *)
Definition choose_model (args : Args) : M ModelChoice :=
  if version args =? "1" then
    ret {| arch := "original"; channel_multiplier := 1;
           model_name := "GFPGANv1";
           url := "https://github.com/TencentARC/GFPGAN/releases/download/v0.1.0/GFPGANv1.pth" |}
  else if version args =? "1.2" then
    ret {| arch := "clean"; channel_multiplier := 2;
           model_name := "GFPGANCleanv1-NoCE-C2";
           url := "https://github.com/TencentARC/GFPGAN/releases/download/v0.2.0/GFPGANCleanv1-NoCE-C2.pth" |}
  else if version args =? "1.3" then
    ret {| arch := "clean"; channel_multiplier := 2;
           model_name := "GFPGANv1.3";
           url := "https://github.com/TencentARC/GFPGAN/releases/download/v1.3.0/GFPGANv1.3.pth" |}
  else if version args =? "1.4" then
    ret {| arch := "clean"; channel_multiplier := 2;
           model_name := "GFPGANv1.4";
           url := "https://github.com/TencentARC/GFPGAN/releases/download/v1.3.0/GFPGANv1.4.pth" |}
  else if version args =? "RestoreFormer" then
    ret {| arch := "RestoreFormer"; channel_multiplier := 2;
           model_name := "RestoreFormer";
           url := "https://github.com/TencentARC/GFPGAN/releases/download/v1.3.4/RestoreFormer.pth" |}
  else raise (ValueError "Wrong model version!").

(** The [determine model paths] block. *)
Definition determine_model_path (c : ModelChoice) : string :=
  let model_path := OsPath.join "experiments/pretrained_models" (model_name c ++ ".pth") in
  let model_path :=
    if negb (os_path_isfile w model_path)
    then OsPath.join "gfpgan/weights" (model_name c ++ ".pth")
    else model_path in
  let model_path :=
    if negb (os_path_isfile w model_path) then url c else model_path in
  model_path.

(** The body of the [save faces] loop for one [(idx, (cropped_face,
    restored_face))]. *)
Definition save_face (args : Args) (basename : string)
    (item : nat * (Image * Image)) : M unit :=
  let '(idx, (cropped_face, restored_face)) := item in
  let save_crop_path :=
    OsPath.join3 (output args) "cropped_faces"
      (basename ++ "_" ++ PyStr.format_02d idx ++ ".png") in
  imwrite cropped_face save_crop_path ;;
  let save_face_name :=
    match suffix args with
    | Some sfx => basename ++ "_" ++ PyStr.format_02d idx ++ "_" ++ sfx ++ ".png"
    | None => basename ++ "_" ++ PyStr.format_02d idx ++ ".png"
    end in
  let save_restore_path := OsPath.join3 (output args) "restored_faces" save_face_name in
  imwrite restored_face save_restore_path ;;
  let cmp_img := Concatenate cropped_face restored_face in
  imwrite cmp_img
    (OsPath.join3 (output args) "cmp" (basename ++ "_" ++ PyStr.format_02d idx ++ ".png")).

(** The [save restored img] block. [src_ext] is the [ext] that
    [os.path.splitext] returned for the image. *)
Definition save_restored_img (args : Args) (basename src_ext : string)
    (restored_img : option Image) : M unit :=
  match restored_img with
  | Some img =>
      let extension := if ext args =? "auto" then PyStr.drop 1 src_ext else ext args in
      let save_restore_path :=
        match suffix args with
        | Some sfx =>
            OsPath.join3 (output args) "restored_imgs"
              (basename ++ "_" ++ sfx ++ "." ++ extension)
        | None =>
            OsPath.join3 (output args) "restored_imgs" (basename ++ "." ++ extension)
        end in
      imwrite img save_restore_path
  | None => ret tt
  end.

(** One iteration of the [restore] loop. It returns the value it leaves
    in the variable [img_name]. *)
Definition restore_image (args : Args) (restorer : GFPGANer.t)
    (img_path : string) : M string :=
  let img_name := OsPath.basename img_path in
  emit (Debug ("Processing " ++ img_name ++ " ...")) ;;
  let '(basename, src_ext) := OsPath.splitext img_name in
  emit (Imread img_path) ;;
  let input_img := cv2_imread w img_path in
  emit (Enhance input_img (aligned args) (only_center_face args) true (weight args)) ;;
  match enhance w restorer input_img (aligned args) (only_center_face args) true
          (weight args) with
  | inl e => raise e
  | inr (cropped_faces, restored_faces, restored_img) =>
      for_in (enumerate (zip cropped_faces restored_faces)) tt
        (fun item _ => save_face args basename item) ;;
      save_restored_img args basename src_ext restored_img ;;
      ret img_name
  end.

(** The three set-up blocks between the input enumeration and the
    [restore] loop: background upsampler, version dispatch, model path,
    and the construction of the restorer. *)
Definition set_up_restorer (args : Args) : M GFPGANer.t :=
  bg <- set_up_bg_upsampler args ;;
  c <- choose_model args ;;
  let model_path := determine_model_path c in
  let restorer :=
    GFPGANer.mk model_path (upscale args) (arch c) (channel_multiplier c) bg in
  emit (NewRestorer restorer) ;;
  ret restorer.

(** The [restore] loop. The variable [img_name] is unbound ([None])
    until the body has run once; the loop yields its final binding. *)
Definition restore_loop (args : Args) (restorer : GFPGANer.t)
    (imgs : list string) : M (option string) :=
  for_in imgs None
    (fun img_path _ => n <- restore_image args restorer img_path ;; ret (Some n)).

(** The body of [run_main] below the [args] dictionary. *)
Definition run_args (args : Args) : M string :=
  let imgs := img_list args in
  emit (Makedirs (output args)) ;;
  restorer <- set_up_restorer args ;;
  img_name <- restore_loop args restorer imgs ;;
  emit (Debug ("Results are in the [" ++ output args ++ "] folder.")) ;;
  match img_name with
  | Some n => ret (output args ++ "/restored_imgs/" ++ n)
  | None => raise (UnboundLocalError "img_name")
  end.

(** The [args] dictionary [run_main] starts from. *)
Definition main_args (_input _output : string) : Args :=
  {| input := _input;
     output := _output;
     version := "1.3";
     upscale := 2;
     bg_upsampler := "realesrgan";
     bg_tile := 400;
     suffix := None;
     only_center_face := false;
     aligned := false;
     ext := "auto";
     weight := (1 # 2)%Q |}.

(** [run_main(_input, _output)]. *)
Definition run_main (_input _output : string) : M string :=
  run_args (main_args _input _output).

(** The paths written by [imwrite], in order. *)
Definition written (t : list Event) : list string :=
  flat_map (fun ev => match ev with Imwrite _ p => [p] | _ => [] end) t.

End Run.

(** The values of [args['version']] the dispatch of [run_main] accepts. *)
Definition known_versions : list string :=
  ["1"; "1.2"; "1.3"; "1.4"; "RestoreFormer"].

(** The two local places a weight file is looked for, in order. *)
Definition cache_path (c : ModelChoice) : string :=
  "experiments/pretrained_models/" ++ model_name c ++ ".pth".

Definition weights_path (c : ModelChoice) : string :=
  "gfpgan/weights/" ++ model_name c ++ ".pth".

(** ** Observations on traces *)

(** The paths handed to [cv2.imread], in order. *)
Definition reads (t : list Event) : list string :=
  flat_map (fun ev => match ev with Imread p => [p] | _ => [] end) t.

Definition is_makedirs (ev : Event) : bool :=
  match ev with Makedirs _ => true | _ => false end.

Definition is_warn (ev : Event) : bool :=
  match ev with Warn _ => true | _ => false end.

Definition is_new_restorer (ev : Event) : bool :=
  match ev with NewRestorer _ => true | _ => false end.

Definition is_enhance (ev : Event) : bool :=
  match ev with Enhance _ _ _ _ _ => true | _ => false end.

(** The basename [run_main] derives from an image path. *)
Definition basename_of (img_path : string) : string :=
  fst (OsPath.splitext (OsPath.basename img_path)).

(** ** The artifact lay-out in closed form

    What the two save blocks of [run_main] write for one image, as a
    function of the arguments, the image path, the number of faces and the
    presence of a full restored image. *)

(** The [_<suffix>] part of a file name, empty without a suffix. *)
Definition suffix_part (args : Args) : string :=
  match suffix args with
  | Some sfx => "_" ++ sfx
  | None => ""
  end.

(** The three paths written for the face [idx] of an image. *)
Definition face_artifacts (args : Args) (basename : string) (idx : nat) : list string :=
  [OsPath.join3 (output args) "cropped_faces"
     (basename ++ "_" ++ PyStr.format_02d idx ++ ".png");
   OsPath.join3 (output args) "restored_faces"
     (basename ++ "_" ++ PyStr.format_02d idx ++ suffix_part args ++ ".png");
   OsPath.join3 (output args) "cmp"
     (basename ++ "_" ++ PyStr.format_02d idx ++ ".png")].

(** The path written for the full restored image. *)
Definition full_image_artifact (args : Args) (basename src_ext : string) : string :=
  OsPath.join3 (output args) "restored_imgs"
    (basename ++ suffix_part args ++ "." ++
     (if ext args =? "auto" then PyStr.drop 1 src_ext else ext args)).

(** All paths written for the image at [img_path], in order. *)
Definition job_artifacts (args : Args) (img_path : string) (faces : nat)
    (full : bool) : list string :=
  let basename := fst (OsPath.splitext (OsPath.basename img_path)) in
  let src_ext := snd (OsPath.splitext (OsPath.basename img_path)) in
  (flat_map (face_artifacts args basename) (seq 0 faces) ++
   (if full then [full_image_artifact args basename src_ext] else []))%list.

(** ** The run with library calls that can fail

    The section [Run] above is [run_main] on a host on which [os.makedirs],
    the two constructors, [np.concatenate] and [imwrite] go through. The
    module [Io] is the same code with these calls as they are: each can
    raise, and [run_main] has no handler, so the exception ends the run. *)

Module Io.

(** What the library calls do on the machine of the run. A call that can
    raise yields the exception, if any. [RealESRGANer_init] stands for the
    imports and the two constructions of the CUDA branch, [GFPGANer_init]
    for the construction of the restorer, which loads the weights. *)
Record Host : Type :=
  { os_makedirs : string -> option PyExn;
    os_path_abspath : string -> string;
    cv2_imwrite : string -> Image -> PyExn + bool;
    np_concatenate : Image -> Image -> option PyExn;
    RealESRGANer_init : RealESRGANer.t -> option PyExn;
    GFPGANer_init : GFPGANer.t -> option PyExn }.

(** A call that returns nothing and may raise. *)
Definition call (err : option PyExn) : M unit :=
  match err with
  | Some e => raise e
  | None => ret tt
  end.

(** [s == '/' * len(s)]. *)
Fixpoint all_sep (s : string) : bool :=
  match s with
  | EmptyString => true
  | String a t => Ascii.eqb a OsPath.sep && all_sep t
  end.

(** [s.rstrip('/')]. *)
Fixpoint rstrip_sep (s : string) : string :=
  match s with
  | EmptyString => EmptyString
  | String a t =>
      match rstrip_sep t with
      | EmptyString => if Ascii.eqb a OsPath.sep then EmptyString else String a EmptyString
      | t' => String a t'
      end
  end.

(** [posixpath.dirname(p)]:
    [i = p.rfind('/') + 1; head = p[:i];
     if head and head != '/' * len(head): head = head.rstrip('/')]. *)
Definition dirname (p : string) : string :=
  let i := (PyStr.rfind p OsPath.sep + 1)%Z in
  let head := PyStr.take (Z.to_nat i) p in
  if negb (String.length head =? 0)%nat && negb (all_sep head)
  then rstrip_sep head else head.

Section Run.

Variables (h : Host) (w : World).

(** [os.makedirs(path, exist_ok=True)]. *)
Definition makedirs (path : string) : M unit :=
  call (os_makedirs h path) ;;
  emit (Makedirs path).

(** [basicsr.utils.imwrite(img, file_path)]: it creates the directory of
    the file, calls [cv2.imwrite], which raises when it has no writer for
    the extension, and raises [IOError] when [cv2.imwrite] returns false.
    The event [Imwrite] records a write that succeeded. *)
Definition imwrite (img : Image) (file_path : string) : M unit :=
  let dir_name := os_path_abspath h (dirname file_path) in
  makedirs dir_name ;;
  match cv2_imwrite h file_path img with
  | inl e => raise e
  | inr ok =>
      if negb ok then raise (OSError "Failed in writing images.")
      else emit (Imwrite img file_path)
  end.

(** The [set up background upsampler] block. *)
Definition set_up_bg_upsampler (args : Args) : M (option RealESRGANer.t) :=
  if bg_upsampler args =? "realesrgan" then
    if negb (torch_cuda_is_available w) then
      emit (Warn cpu_warning) ;;
      ret None
    else
      let model := RRDBNet.mk 3 3 64 23 32 2 in
      let upsampler :=
        RealESRGANer.mk 2 realesrgan_url model (bg_tile args) 10 0 true in
      call (RealESRGANer_init h upsampler) ;;
      ret (Some upsampler)
  else ret None.

(** The set-up blocks up to the construction of the restorer. *)
Definition set_up_restorer (args : Args) : M GFPGANer.t :=
  bg <- set_up_bg_upsampler args ;;
  c <- choose_model args ;;
  let model_path := determine_model_path w c in
  let restorer :=
    GFPGANer.mk model_path (upscale args) (arch c) (channel_multiplier c) bg in
  call (GFPGANer_init h restorer) ;;
  emit (NewRestorer restorer) ;;
  ret restorer.

(** The body of the [save faces] loop. *)
Definition save_face (args : Args) (basename : string)
    (item : nat * (Image * Image)) : M unit :=
  let '(idx, (cropped_face, restored_face)) := item in
  let save_crop_path :=
    OsPath.join3 (output args) "cropped_faces"
      (basename ++ "_" ++ PyStr.format_02d idx ++ ".png") in
  imwrite cropped_face save_crop_path ;;
  let save_face_name :=
    match suffix args with
    | Some sfx => basename ++ "_" ++ PyStr.format_02d idx ++ "_" ++ sfx ++ ".png"
    | None => basename ++ "_" ++ PyStr.format_02d idx ++ ".png"
    end in
  let save_restore_path := OsPath.join3 (output args) "restored_faces" save_face_name in
  imwrite restored_face save_restore_path ;;
  call (np_concatenate h cropped_face restored_face) ;;
  let cmp_img := Concatenate cropped_face restored_face in
  imwrite cmp_img
    (OsPath.join3 (output args) "cmp" (basename ++ "_" ++ PyStr.format_02d idx ++ ".png")).

(** The [save restored img] block. *)
Definition save_restored_img (args : Args) (basename src_ext : string)
    (restored_img : option Image) : M unit :=
  match restored_img with
  | Some img =>
      let extension := if ext args =? "auto" then PyStr.drop 1 src_ext else ext args in
      let save_restore_path :=
        match suffix args with
        | Some sfx =>
            OsPath.join3 (output args) "restored_imgs"
              (basename ++ "_" ++ sfx ++ "." ++ extension)
        | None =>
            OsPath.join3 (output args) "restored_imgs" (basename ++ "." ++ extension)
        end in
      imwrite img save_restore_path
  | None => ret tt
  end.

(** One iteration of the [restore] loop. *)
Definition restore_image (args : Args) (restorer : GFPGANer.t)
    (img_path : string) : M string :=
  let img_name := OsPath.basename img_path in
  emit (Debug ("Processing " ++ img_name ++ " ...")) ;;
  let '(basename, src_ext) := OsPath.splitext img_name in
  emit (Imread img_path) ;;
  let input_img := cv2_imread w img_path in
  emit (Enhance input_img (aligned args) (only_center_face args) true (weight args)) ;;
  match enhance w restorer input_img (aligned args) (only_center_face args) true
          (weight args) with
  | inl e => raise e
  | inr (cropped_faces, restored_faces, restored_img) =>
      for_in (enumerate (zip cropped_faces restored_faces)) tt
        (fun item _ => save_face args basename item) ;;
      save_restored_img args basename src_ext restored_img ;;
      ret img_name
  end.

(** The [restore] loop. *)
Definition restore_loop (args : Args) (restorer : GFPGANer.t)
    (imgs : list string) : M (option string) :=
  for_in imgs None
    (fun img_path _ => n <- restore_image args restorer img_path ;; ret (Some n)).

(** The body of [run_main] below the [args] dictionary. *)
Definition run_args (args : Args) : M string :=
  let imgs := img_list w args in
  makedirs (output args) ;;
  restorer <- set_up_restorer args ;;
  img_name <- restore_loop args restorer imgs ;;
  emit (Debug ("Results are in the [" ++ output args ++ "] folder.")) ;;
  match img_name with
  | Some n => ret (output args ++ "/restored_imgs/" ++ n)
  | None => raise (UnboundLocalError "img_name")
  end.

(** [run_main(_input, _output)]. *)
Definition run_main (_input _output : string) : M string :=
  run_args (main_args _input _output).

End Run.

(** A host on which no call fails. *)
Definition accepting (h : Host) : Prop :=
  (forall path, os_makedirs h path = None) /\
  (forall path img, cv2_imwrite h path img = inr true) /\
  (forall a b, np_concatenate h a b = None) /\
  (forall u, RealESRGANer_init h u = None) /\
  (forall r, GFPGANer_init h r = None).

(** [e] is what one of the library calls raises on this host and in this
    environment. *)
Definition raised_by_library (h : Host) (w : World) (e : PyExn) : Prop :=
  (exists path, os_makedirs h path = Some e) \/
  (exists u, RealESRGANer_init h u = Some e) \/
  (exists r, GFPGANer_init h r = Some e) \/
  (exists r img a c pb wt, enhance w r img a c pb wt = inl e) \/
  (exists a b, np_concatenate h a b = Some e) \/
  (exists path img, cv2_imwrite h path img = inl e) \/
  (e = OSError "Failed in writing images." /\
   exists path img, cv2_imwrite h path img = inr false).

End Io.

(** The images written with their paths, in order. *)
Definition writes (t : list Event) : list (Image * string) :=
  flat_map (fun ev => match ev with Imwrite img p => [(img, p)] | _ => [] end) t.

(** The three writes for one face: the cropped face, the restored face
    and the two side by side. *)
Definition face_writes (args : Args) (basename : string)
    (item : nat * (Image * Image)) : list (Image * string) :=
  let '(idx, (cropped_face, restored_face)) := item in
  [(cropped_face,
    OsPath.join3 (output args) "cropped_faces"
      (basename ++ "_" ++ PyStr.format_02d idx ++ ".png"));
   (restored_face,
    OsPath.join3 (output args) "restored_faces"
      (basename ++ "_" ++ PyStr.format_02d idx ++ suffix_part args ++ ".png"));
   (Concatenate cropped_face restored_face,
    OsPath.join3 (output args) "cmp"
      (basename ++ "_" ++ PyStr.format_02d idx ++ ".png"))].

(** All writes for the image at [img_path] when [enhance] returned [res]:
    the faces in detection order, then the full image if there is one. *)
Definition job_writes (args : Args) (img_path : string) (res : EnhanceResult) :
    list (Image * string) :=
  let '(cropped_faces, restored_faces, restored_img) := res in
  (flat_map (face_writes args (basename_of img_path))
     (enumerate (zip cropped_faces restored_faces)) ++
   match restored_img with
   | Some img =>
       [(img, full_image_artifact args (basename_of img_path)
                (snd (OsPath.splitext (OsPath.basename img_path))))]
   | None => []
   end)%list.

(** The writes of a computation follow the list [full]: all of it when the
    computation returns, the part before the failing call when it raises. *)
Definition writes_within {A : Type} (m : M A) (full : list (Image * string)) : Prop :=
  match outcome m with
  | inr _ => writes (trace m) = full
  | inl _ => exists k, writes (trace m) = firstn k full
  end.

(** A trace without its directory creations. *)
Definition without_makedirs (t : list Event) : list Event :=
  filter (fun ev => negb (is_makedirs ev)) t.

(** Two computations end the same way and, the creation of directories
    apart, do the same things in the same order. *)
Definition agree {A : Type} (m m' : M A) : Prop :=
  outcome m = outcome m' /\
  without_makedirs (trace m) = without_makedirs (trace m').

(** ** Sample environments *)

(** An engine that finds one face in every decoded image and pastes it
    back, and raises on an image that could not be decoded. *)
Definition one_face_engine (r : GFPGANer.t) (input_img : option Image)
    (has_aligned only_center_face paste_back : bool) (weight : Q) :
    PyExn + EnhanceResult :=
  match input_img with
  | Some _ => inr ([Pixels 1], [Pixels 2], Some (Pixels 3))
  | None => inl (EngineError "input image is None")
  end.

(** An engine that returns the faces but no full image. *)
Definition faces_only_engine (r : GFPGANer.t) (input_img : option Image)
    (has_aligned only_center_face paste_back : bool) (weight : Q) :
    PyExn + EnhanceResult :=
  inr ([Pixels 1], [Pixels 2], None).

(** An environment in which the regular files are [files], every glob
    pattern matches [listing], the images that decode are [decodable], and
    [cuda] tells whether a CUDA device is available. *)
Definition sample_world (files listing decodable : list string)
    (cuda : bool)
    (engine : GFPGANer.t -> option Image -> bool -> bool -> bool -> Q ->
              PyExn + EnhanceResult) : World :=
  {| os_path_isfile := fun p => existsb (String.eqb p) files;
     glob_glob := fun _ => listing;
     torch_cuda_is_available := cuda;
     cv2_imread := fun p => if existsb (String.eqb p) decodable
                            then Some (Pixels 0) else None;
     enhance := engine |}.

(** The single file [portrait.jpg]. *)
Definition portrait_world : World :=
  sample_world ["portrait.jpg"] [] ["portrait.jpg"] false one_face_engine.

(** The same file on a machine with CUDA. *)
Definition cuda_world : World :=
  sample_world ["portrait.jpg"] [] ["portrait.jpg"] true one_face_engine.

(** A directory [empty_dir] without entries. *)
Definition empty_dir_world : World :=
  sample_world [] [] [] false one_face_engine.

(** A directory [in] holding a corrupt file [a.jpg] and a photo [b.jpg]. *)
Definition mixed_dir_world : World :=
  sample_world ["in/b.jpg"; "in/a.jpg"] ["in/b.jpg"; "in/a.jpg"] ["in/b.jpg"]
    false one_face_engine.

(** The arguments of [run_main] for [portrait.jpg], but with the suffix
    [v2] and the extension [png] configured. *)
Definition suffixed_args : Args :=
  {| input := "portrait.jpg"; output := "output"; version := "1.3";
     upscale := 2; bg_upsampler := "realesrgan"; bg_tile := 400;
     suffix := Some "v2"; only_center_face := false; aligned := false;
     ext := "png"; weight := (1 # 2)%Q |}.

(** The arguments of [run_main] for [portrait.jpg], but for version 1.4. *)
Definition v14_args : Args :=
  {| input := "portrait.jpg"; output := "output"; version := "1.4";
     upscale := 2; bg_upsampler := "realesrgan"; bg_tile := 400;
     suffix := None; only_center_face := false; aligned := false;
     ext := "auto"; weight := (1 # 2)%Q |}.

(** The single file [photo], an image whose name has no extension. *)
Definition photo_world : World :=
  sample_world ["photo"] [] ["photo"] false one_face_engine.

(** The single file [a.jpg] with an engine that returns no full image. *)
Definition faces_only_world : World :=
  sample_world ["a.jpg"] [] ["a.jpg"] false faces_only_engine.

(** A directory [in] holding the photos [a.jpg] and [b.jpg]. *)
Definition pair_dir_world : World :=
  sample_world [] ["in/b.jpg"; "in/a.jpg"] ["in/a.jpg"; "in/b.jpg"] false
    one_face_engine.

(** A directory [in] holding [a.jpg] and [a.png], both photos. *)
Definition twin_dir_world : World :=
  sample_world [] ["in/a.jpg"; "in/a.png"] ["in/a.jpg"; "in/a.png"] false
    one_face_engine.

(** The directory of [mixed_dir_world], listed in the other order. *)
Definition relisted_dir_world : World :=
  sample_world ["in/b.jpg"; "in/a.jpg"] ["in/a.jpg"; "in/b.jpg"] ["in/b.jpg"]
    false one_face_engine.

(** A host that accepts every call; paths are taken as absolute. *)
Definition accepting_host : Io.Host :=
  {| Io.os_makedirs := fun _ => None;
     Io.os_path_abspath := fun p => p;
     Io.cv2_imwrite := fun _ _ => inr true;
     Io.np_concatenate := fun _ _ => None;
     Io.RealESRGANer_init := fun _ => None;
     Io.GFPGANer_init := fun _ => None |}.

(** [s.endswith(t)]. *)
Definition has_suffix (s t : string) : bool :=
  String.eqb (PyStr.drop (String.length s - String.length t) s) t.

(** A host whose [cv2] has writers for [.png] and [.jpg] only. *)
Definition png_jpg_host : Io.Host :=
  {| Io.os_makedirs := fun _ => None;
     Io.os_path_abspath := fun p => p;
     Io.cv2_imwrite := fun path _ =>
       if has_suffix path ".png" || has_suffix path ".jpg" then inr true
       else inl (Cv2Error "could not find a writer for the specified extension");
     Io.np_concatenate := fun _ _ => None;
     Io.RealESRGANer_init := fun _ => None;
     Io.GFPGANer_init := fun _ => None |}.

(** A directory [in] holding the photos [a.jfif] and [b.jpg]. *)
Definition jfif_dir_world : World :=
  sample_world [] ["in/b.jpg"; "in/a.jfif"] ["in/a.jfif"; "in/b.jpg"] false
    one_face_engine.

(** ** Reference readings of the text of the specification

    These two definitions follow the wording of the specification, not the
    program; the program is compared with them below. *)

Module Spec.

(** "strip trailing separators": every trailing ['/'] is removed. *)
Fixpoint strip_trailing_separators (s : string) : string :=
  match s with
  | EmptyString => EmptyString
  | String a t =>
      match strip_trailing_separators t with
      | EmptyString => if Ascii.eqb a "/" then EmptyString else String a EmptyString
      | t' => String a t'
      end
  end.

(** "<basename>_<faceIndex:2-digit-zero-padded>[_<suffix>].<ext>", the
    name the specification gives to every face-level artifact. *)
Definition face_artifact_name (basename : string) (idx : nat)
    (suffix : option string) (ext : string) : string :=
  match suffix with
  | Some sfx => basename ++ "_" ++ PyStr.format_02d idx ++ "_" ++ sfx ++ "." ++ ext
  | None => basename ++ "_" ++ PyStr.format_02d idx ++ "." ++ ext
  end.

End Spec.

(** ** Sample runs of the library model *)

Example splitext_jpg : OsPath.splitext "portrait.jpg" = ("portrait", ".jpg").
Proof. reflexivity. Qed.

Example splitext_hidden : OsPath.splitext ".bashrc" = (".bashrc", "").
Proof. reflexivity. Qed.

Example splitext_two : OsPath.splitext "a.tar.gz" = ("a.tar", ".gz").
Proof. reflexivity. Qed.

Example splitext_dir : OsPath.splitext "d.x/file" = ("d.x/file", "").
Proof. reflexivity. Qed.

Example basename_ex : OsPath.basename "in/sub/portrait.jpg" = "portrait.jpg".
Proof. reflexivity. Qed.

Example join_ex : OsPath.join3 "out" "cmp" "a_00.png" = "out/cmp/a_00.png".
Proof. reflexivity. Qed.

Example format_ex : map PyStr.format_02d [0; 7; 10; 123] = ["00"; "07"; "10"; "123"].
Proof. reflexivity. Qed.

Example sorted_ex : PyStr.sorted ["d/b"; "d/a10"; "d/a2"; "d/B"] = ["d/B"; "d/a10"; "d/a2"; "d/b"].
Proof. reflexivity. Qed.


(** ** Facts about strings *)

Module StrFacts.

Lemma app_nil_r (s : string) : s ++ "" = s.
Proof. induction s as [|a s IH]; simpl; [reflexivity | now rewrite IH]. Qed.

Lemma app_assoc (x y z : string) : (x ++ y) ++ z = x ++ (y ++ z).
Proof. induction x as [|a x IH]; simpl; [reflexivity | now rewrite IH]. Qed.

Lemma to_list_app (x y : string) :
  list_ascii_of_string (x ++ y) =
  (list_ascii_of_string x ++ list_ascii_of_string y)%list.
Proof. induction x as [|a x IH]; simpl; [reflexivity | now rewrite IH]. Qed.

Lemma to_list_inj (x y : string) :
  list_ascii_of_string x = list_ascii_of_string y -> x = y.
Proof.
  intros H.
  rewrite <- (string_of_list_ascii_of_string x), H.
  apply string_of_list_ascii_of_string.
Qed.

Lemma app_inv_head (x y z : string) : x ++ y = x ++ z -> y = z.
Proof. induction x as [|a x IH]; simpl; intros H; [exact H | injection H; auto]. Qed.

Lemma app_inv_tail (x y z : string) : x ++ z = y ++ z -> x = y.
Proof.
  intros H. apply to_list_inj.
  apply (f_equal list_ascii_of_string) in H.
  rewrite !to_list_app in H.
  exact (List.app_inv_tail _ _ _ H).
Qed.

Lemma length_app (x y : string) :
  String.length (x ++ y) = String.length x + String.length y.
Proof. induction x as [|a x IH]; simpl; [reflexivity | now rewrite IH]. Qed.

Lemma contains_app (c : ascii) (x y : string) :
  PyStr.contains c (x ++ y) = PyStr.contains c x || PyStr.contains c y.
Proof.
  induction x as [|a x IH]; simpl; [reflexivity |].
  now rewrite IH, orb_assoc.
Qed.

(** A string is cut in one way only at the last occurrence of a
    character. *)
Lemma cut_at_last (c : ascii) (x1 x2 y1 y2 : string) :
  PyStr.contains c y1 = false -> PyStr.contains c y2 = false ->
  x1 ++ String c y1 = x2 ++ String c y2 -> x1 = x2 /\ y1 = y2.
Proof.
  revert x2.
  induction x1 as [|a x1 IH]; intros [|b x2] H1 H2 E; simpl in E.
  - injection E as E. now split.
  - injection E as Ec E. subst y1.
    rewrite contains_app in H1. simpl in H1.
    rewrite Ascii.eqb_refl, orb_true_r in H1. discriminate.
  - injection E as Ec E. subst y2.
    rewrite contains_app in H2. simpl in H2.
    rewrite Ascii.eqb_refl, orb_true_r in H2. discriminate.
  - injection E as Ea E. subst b.
    destruct (IH x2 H1 H2 E) as [-> ->]. now split.
Qed.

Lemma take_drop (n : nat) (s : string) : PyStr.take n s ++ PyStr.drop n s = s.
Proof.
  revert s. induction n as [|n IH]; intros [|a s]; simpl; try reflexivity.
  now rewrite IH.
Qed.

Lemma drop_drop (n m : nat) (s : string) :
  PyStr.drop n (PyStr.drop m s) = PyStr.drop (m + n) s.
Proof.
  revert s. induction m as [|m IH]; intros s; simpl; [reflexivity |].
  destruct s as [|a s]; [now destruct n | apply IH].
Qed.

Lemma contains_take (c : ascii) (n : nat) (s : string) :
  PyStr.contains c s = false -> PyStr.contains c (PyStr.take n s) = false.
Proof.
  revert s. induction n as [|n IH]; intros [|a s]; simpl; try reflexivity.
  intros H. apply orb_false_elim in H as [Ha Hs].
  now rewrite Ha, (IH _ Hs).
Qed.

Lemma contains_drop (c : ascii) (n : nat) (s : string) :
  PyStr.contains c s = false -> PyStr.contains c (PyStr.drop n s) = false.
Proof.
  revert s. induction n as [|n IH]; intros [|a s]; simpl; try tauto.
  intros H. apply orb_false_elim in H as [Ha Hs]. now apply IH.
Qed.

Lemma rfind_opt_None (c : ascii) (s : string) :
  PyStr.rfind_opt c s = None <-> PyStr.contains c s = false.
Proof.
  induction s as [|a s IH]; simpl; [tauto |].
  destruct (PyStr.rfind_opt c s) as [i|].
  - split; [discriminate |].
    intros H. apply orb_false_elim in H as [_ Hs].
    apply IH in Hs. discriminate.
  - destruct IH as [IH _]. rewrite (IH eq_refl), orb_false_r.
    destruct (Ascii.eqb a c); split; congruence.
Qed.

(** At the index [rfind_opt] returns stands [c], and [c] does not occur
    after it. *)
Lemma rfind_opt_Some (c : ascii) (s : string) (i : nat) :
  PyStr.rfind_opt c s = Some i ->
  PyStr.drop i s = String c (PyStr.drop (S i) s) /\
  PyStr.contains c (PyStr.drop (S i) s) = false.
Proof.
  revert i. induction s as [|a s IH]; simpl; intros i H; [discriminate |].
  destruct (PyStr.rfind_opt c s) as [j|] eqn:Ej.
  - injection H as <-. simpl. exact (IH j eq_refl).
  - destruct (Ascii.eqb_spec a c) as [->|]; [|discriminate].
    injection H as <-. simpl. split; [reflexivity |].
    now apply rfind_opt_None.
Qed.

Lemma basename_no_sep (p : string) :
  PyStr.contains OsPath.sep (OsPath.basename p) = false.
Proof.
  unfold OsPath.basename, PyStr.rfind.
  destruct (PyStr.rfind_opt OsPath.sep p) as [i|] eqn:E.
  - replace (Z.to_nat (Z.of_nat i + 1)) with (S i) by lia.
    now apply rfind_opt_Some.
  - simpl. now apply rfind_opt_None.
Qed.

Lemma rfind_lower (s : string) (c : ascii) : (-1 <= PyStr.rfind s c)%Z.
Proof. unfold PyStr.rfind. destruct (PyStr.rfind_opt c s); lia. Qed.

(** The two parts [splitext] returns make up its argument; the second is
    empty or a dot followed by a dot-free rest. *)
Lemma splitext_spec (p : string) :
  fst (OsPath.splitext p) ++ snd (OsPath.splitext p) = p /\
  (snd (OsPath.splitext p) = "" \/
   exists e, snd (OsPath.splitext p) = String OsPath.extsep e /\
             PyStr.contains OsPath.extsep e = false).
Proof.
  unfold OsPath.splitext.
  pose proof (rfind_lower p OsPath.sep) as Hsep.
  destruct (Z.ltb_spec (PyStr.rfind p OsPath.sep) (PyStr.rfind p OsPath.extsep))
    as [Hlt|_]; [| simpl; split; [apply app_nil_r | now left]].
  destruct (OsPath.skip_leading_dots _ _ _);
    [| simpl; split; [apply app_nil_r | now left]].
  simpl. split; [apply take_drop |].
  unfold PyStr.rfind in Hsep, Hlt |- *.
  destruct (PyStr.rfind_opt OsPath.extsep p) as [i|] eqn:E; [| lia].
  rewrite Nat2Z.id. destruct (rfind_opt_Some _ _ _ E) as [H1 H2].
  right. eexists. split; [exact H1 | exact H2].
Qed.

Lemma splitext_ext_no_dot (p : string) :
  PyStr.contains OsPath.extsep (PyStr.drop 1 (snd (OsPath.splitext p))) = false.
Proof.
  destruct (splitext_spec p) as [_ [-> | [e [-> He]]]]; [reflexivity | exact He].
Qed.

(** With a non-empty extension, [basename + "." + ext[1:]] is the name
    that was split. *)
Lemma splitext_rejoin (p : string) :
  snd (OsPath.splitext p) <> "" ->
  fst (OsPath.splitext p) ++ "." ++ PyStr.drop 1 (snd (OsPath.splitext p)) = p.
Proof.
  intros Hne. destruct (splitext_spec p) as [Hp [He | [e [He _]]]]; [contradiction |].
  rewrite He in Hp |- *. exact Hp.
Qed.

Lemma splitext_base_no_sep (p : string) :
  PyStr.contains OsPath.sep p = false ->
  PyStr.contains OsPath.sep (fst (OsPath.splitext p)) = false.
Proof.
  intros H. destruct (splitext_spec p) as [Hp _].
  rewrite <- Hp, contains_app in H. now apply orb_false_elim in H.
Qed.

Lemma digits_no_underscore (d : Decimal.uint) :
  PyStr.contains "_" (NilEmpty.string_of_uint d) = false.
Proof. induction d; simpl; auto. Qed.

Lemma format_02d_no_underscore (n : nat) :
  PyStr.contains "_" (PyStr.format_02d n) = false.
Proof.
  assert (H : PyStr.contains "_" (PyStr.of_nat n) = false).
  { unfold PyStr.of_nat, NilZero.string_of_uint.
    destruct (Nat.to_uint n) eqn:E; try reflexivity;
      rewrite <- E; apply digits_no_underscore. }
  unfold PyStr.format_02d.
  destruct (String.length (PyStr.of_nat n) <? 2)%nat; simpl; exact H.
Qed.

Lemma startswith_app (x y : string) (c : ascii) :
  PyStr.contains c x = false -> PyStr.startswith y c = false ->
  PyStr.startswith (x ++ y) c = false.
Proof.
  destruct x as [|a x]; simpl; [auto |].
  intros H _. now apply orb_false_elim in H.
Qed.

Lemma endswith_app (x y : string) (c : ascii) :
  y <> "" -> PyStr.endswith (x ++ y) c = PyStr.endswith y c.
Proof.
  intros Hy. induction x as [|a x IH]; simpl; [reflexivity |].
  destruct (x ++ y) eqn:E; [| exact IH].
  destruct x; simpl in E; [contradiction | discriminate].
Qed.

(** [s] is [s[:-1]] followed by the separator when it ends in one. *)
Lemma drop_last_endswith (s : string) (c : ascii) :
  PyStr.endswith s c = true -> s = PyStr.drop_last s ++ String c "".
Proof.
  induction s as [|a s IH]; simpl; [discriminate |].
  destruct s as [|b s].
  - intros H. apply Ascii.eqb_eq in H. now subst.
  - intros H. simpl. f_equal. now apply IH.
Qed.

End StrFacts.

(** ** Facts about [os.path.join] *)

Module JoinFacts.

Lemma join_file (d name : string) :
  d <> "" -> PyStr.endswith d OsPath.sep = false ->
  PyStr.startswith name OsPath.sep = false ->
  OsPath.join d name = d ++ "/" ++ name.
Proof.
  intros Hd He Hn. unfold OsPath.join. rewrite Hn, He.
  destruct d; [contradiction | reflexivity].
Qed.

(** Joining a directory, a category and a file name puts the same glue
    after the directory whatever the category and the name. *)
Lemma join3_shape (out : string) :
  exists g, forall cat name,
    PyStr.startswith cat OsPath.sep = false -> cat <> "" ->
    PyStr.endswith cat OsPath.sep = false ->
    PyStr.startswith name OsPath.sep = false ->
    OsPath.join3 out cat name = out ++ g ++ cat ++ "/" ++ name.
Proof.
  exists (if (String.length out =? 0)%nat || PyStr.endswith out OsPath.sep
          then "" else "/").
  intros cat name Hc Hne He Hn. unfold OsPath.join3.
  assert (Hj : OsPath.join out cat =
               out ++ (if (String.length out =? 0)%nat || PyStr.endswith out OsPath.sep
                       then "" else "/") ++ cat).
  { unfold OsPath.join. rewrite Hc.
    destruct ((String.length out =? 0)%nat || PyStr.endswith out OsPath.sep);
      reflexivity. }
  rewrite join_file.
  - rewrite Hj, !StrFacts.app_assoc. reflexivity.
  - rewrite Hj. intros E. apply (f_equal String.length) in E.
    rewrite !StrFacts.length_app in E. destruct cat; [contradiction |].
    simpl in E. lia.
  - rewrite Hj, <- StrFacts.app_assoc, StrFacts.endswith_app; assumption.
  - exact Hn.
Qed.

Lemma no_sep_startswith (s : string) :
  PyStr.contains OsPath.sep s = false -> PyStr.startswith s OsPath.sep = false.
Proof. destruct s as [|a s]; simpl; [reflexivity |]. intros H. now apply orb_false_elim in H. Qed.

(** Under a non-empty directory without trailing separator the joined
    path is the plain concatenation with separators. *)
Lemma join3_plain (out cat name : string) :
  out <> "" -> PyStr.endswith out OsPath.sep = false ->
  PyStr.startswith cat OsPath.sep = false -> cat <> "" ->
  PyStr.endswith cat OsPath.sep = false ->
  PyStr.startswith name OsPath.sep = false ->
  OsPath.join3 out cat name = out ++ "/" ++ cat ++ "/" ++ name.
Proof.
  intros Ho Heo Hc Hne Hec Hn. unfold OsPath.join3.
  rewrite (join_file out cat Ho Heo Hc).
  rewrite join_file.
  - rewrite StrFacts.app_assoc. reflexivity.
  - destruct out; [contradiction | discriminate].
  - change (out ++ "/" ++ cat) with (out ++ String "/" "" ++ cat).
    rewrite <- StrFacts.app_assoc, StrFacts.endswith_app; assumption.
  - exact Hn.
Qed.

End JoinFacts.

(** ** Facts about [sorted] *)

Module SortFacts.

Abbreviation le := PyStr.le.

Lemma insert_perm (x : string) (l : list string) :
  Permutation (PyStr.insert x l) (x :: l).
Proof.
  induction l as [|y l IH]; simpl; [apply Permutation_refl |].
  destruct (String.leb x y); [apply Permutation_refl |].
  eapply perm_trans; [apply perm_skip, IH | apply perm_swap].
Qed.

Lemma sorted_perm (l : list string) : Permutation (PyStr.sorted l) l.
Proof.
  induction l as [|x l IH]; simpl; [constructor |].
  eapply perm_trans; [apply insert_perm | now apply perm_skip].
Qed.

Lemma insert_hd (x a : string) (l : list string) :
  le a x -> HdRel le a l -> HdRel le a (PyStr.insert x l).
Proof.
  intros Hax Hl. destruct l as [|y l]; simpl; [now constructor |].
  destruct (String.leb x y); constructor; [exact Hax | now inversion Hl].
Qed.

Lemma insert_sorted (x : string) (l : list string) :
  Sorted le l -> Sorted le (PyStr.insert x l).
Proof.
  induction 1 as [|y l Hs IH Hhd]; simpl; [repeat constructor |].
  destruct (String.leb x y) eqn:E.
  - constructor; [now constructor | now constructor].
  - constructor; [exact IH |].
    apply insert_hd; [| exact Hhd].
    destruct (String.leb_total x y) as [H|H]; [congruence | exact H].
Qed.

Lemma sorted_sorted (l : list string) : Sorted le (PyStr.sorted l).
Proof.
  induction l as [|x l IH]; simpl; [constructor | now apply insert_sorted].
Qed.

Lemma ascii_compare_refl (a : ascii) : Ascii.compare a a = Eq.
Proof. unfold Ascii.compare. apply N.compare_refl. Qed.

Lemma compare_prefix (d a b : string) :
  String.compare (d ++ a) (d ++ b) = String.compare a b.
Proof.
  induction d as [|c d IH]; simpl; [reflexivity |].
  now rewrite ascii_compare_refl.
Qed.

Lemma leb_prefix (d a b : string) :
  String.leb (d ++ a) (d ++ b) = String.leb a b.
Proof. unfold String.leb. now rewrite compare_prefix. Qed.

Lemma insert_map (d x : string) (l : list string) :
  PyStr.insert (d ++ x) (map (String.append d) l) =
  map (String.append d) (PyStr.insert x l).
Proof.
  induction l as [|y l IH]; simpl; [reflexivity |].
  rewrite leb_prefix. destruct (String.leb x y); simpl; [reflexivity |].
  now rewrite IH.
Qed.

(** Paths under one directory sort as their file names do. *)
Lemma sorted_map (d : string) (l : list string) :
  PyStr.sorted (map (String.append d) l) = map (String.append d) (PyStr.sorted l).
Proof.
  induction l as [|x l IH]; simpl; [reflexivity |].
  now rewrite IH, insert_map.
Qed.

Lemma ascii_compare_trans (a b c : ascii) (r : comparison) :
  Ascii.compare a b = r -> Ascii.compare b c = r -> Ascii.compare a c = r.
Proof.
  unfold Ascii.compare. destruct r; intros H1 H2.
  - apply N.compare_eq_iff in H1, H2. apply N.compare_eq_iff. congruence.
  - apply N.compare_lt_iff in H1, H2. apply N.compare_lt_iff.
    eapply N.lt_trans; eassumption.
  - apply N.compare_gt_iff in H1, H2. apply N.compare_gt_iff.
    eapply N.lt_trans; eassumption.
Qed.

Lemma le_trans (a b c : string) : le a b -> le b c -> le a c.
Proof.
  unfold le, String.leb. revert b c.
  induction a as [|x a IH]; intros [|y b] [|z c]; simpl; try congruence.
  destruct (Ascii.compare x y) eqn:Exy; try congruence;
    destruct (Ascii.compare y z) eqn:Eyz; try congruence.
  - rewrite (ascii_compare_trans _ _ _ _ Exy Eyz). apply IH.
  - apply Ascii.compare_eq_iff in Exy. subst y. now rewrite Eyz.
  - apply Ascii.compare_eq_iff in Eyz. subst z. now rewrite Exy.
  - now rewrite (ascii_compare_trans _ _ _ _ Exy Eyz).
Qed.

Lemma sorted_strongly (l : list string) : StronglySorted le (PyStr.sorted l).
Proof.
  apply Sorted_StronglySorted; [| apply sorted_sorted].
  intros a b c. apply le_trans.
Qed.

End SortFacts.

(** ** Facts about the monad and the loops *)

Module RunFacts.

Lemma bind_ok {A B : Type} (m : M A) (k : A -> M B) (t : list Event) (a : A) :
  m = (t, inr a) -> bind m k = ((t ++ trace (k a))%list, outcome (k a)).
Proof. intros ->. unfold bind, trace, outcome. now destruct (k a). Qed.

Lemma bind_err {A B : Type} (m : M A) (k : A -> M B) (t : list Event) (e : PyExn) :
  m = (t, inl e) -> bind m k = (t, inl e).
Proof. now intros ->. Qed.

Lemma written_app (a b : list Event) :
  written (a ++ b) = (written a ++ written b)%list.
Proof. apply flat_map_app. Qed.

Lemma last_cons {A : Type} (l : list A) (x d : A) :
  last (x :: l) d = last l x.
Proof.
  revert x d. induction l as [|y l IH]; intros x d; [reflexivity |].
  change (last (x :: y :: l) d) with (last (y :: l) d).
  now rewrite !IH.
Qed.

(** A loop whose body cannot raise runs the body on every element. *)
Lemma for_in_total {A : Type} (l : list A) (body : A -> M unit) :
  (forall x, outcome (body x) = inr tt) ->
  for_in l tt (fun x _ => body x) = (flat_map (fun x => trace (body x)) l, inr tt).
Proof.
  intros Hb. induction l as [|x l IH]; simpl; [reflexivity |].
  specialize (Hb x). destruct (body x) as [t r]. simpl in Hb. subst r.
  unfold bind at 1. rewrite IH. reflexivity.
Qed.

Section Loop.

Variables (w : World) (args : Args) (restorer : GFPGANer.t).

Abbreviation job := (restore_image w args restorer).
Abbreviation loop_body :=
  (fun (img_path : string) (_ : option string) =>
     n <- job img_path ;; ret (Some n)).

(** An iteration that completes binds [img_name] to the file name of
    its image. *)
Lemma job_name (p n : string) :
  outcome (job p) = inr n -> n = OsPath.basename p.
Proof.
  unfold restore_image, outcome, bind, emit, ret. simpl.
  destruct (OsPath.splitext (OsPath.basename p)) as [b e]. simpl.
  destruct (enhance w _ _ _ _ _ _) as [ex|[[cs rs] ri]]; simpl; [discriminate |].
  destruct (for_in _ _ _) as [tf [ef|[]]]; simpl; [discriminate |].
  destruct (save_restored_img args b e ri) as [ts [es|[]]]; simpl;
    [discriminate | congruence].
Qed.

Lemma loop_step_ok (p : string) (l : list string) (s : option string)
    (t : list Event) (n : string) :
  job p = (t, inr n) ->
  for_in (p :: l) s loop_body =
  ((t ++ trace (for_in l (Some n) loop_body))%list,
   outcome (for_in l (Some n) loop_body)).
Proof.
  intros Hj. cbn [for_in]. rewrite Hj. unfold bind, ret. simpl.
  destruct (for_in l (Some n) _) as [t' r']. simpl.
  now rewrite app_nil_r.
Qed.

Lemma loop_step_raise (p : string) (l : list string) (s : option string)
    (t : list Event) (e : PyExn) :
  job p = (t, inl e) -> for_in (p :: l) s loop_body = (t, inl e).
Proof. intros Hj. cbn [for_in]. rewrite Hj. reflexivity. Qed.

(** When no image of the list makes the engine raise, the loop runs
    every iteration and leaves the last image name in [img_name]. *)
Lemma restore_loop_ok (imgs : list string) (s : option string) :
  (forall p, In p imgs -> exists n, outcome (job p) = inr n) ->
  for_in imgs s loop_body =
  (flat_map (fun p => trace (job p)) imgs,
   inr (last (map (fun p => Some (OsPath.basename p)) imgs) s)).
Proof.
  revert s. induction imgs as [|p imgs IH]; intros s Hok; [reflexivity |].
  destruct (Hok p (or_introl eq_refl)) as [n Hn].
  pose proof (job_name _ _ Hn) as ->.
  destruct (job p) as [t r] eqn:Ej. simpl in Hn. subst r.
  rewrite (loop_step_ok _ _ _ _ _ Ej).
  rewrite IH by (intros q Hq; apply Hok; now right).
  cbn [trace outcome fst snd flat_map map]. rewrite Ej. cbn [trace fst].
  f_equal. f_equal. symmetry. apply last_cons.
Qed.

(** The first image on which the engine raises ends the loop: the
    images after it are not touched. *)
Lemma restore_loop_raise (before after : list string) (p : string)
    (e : PyExn) (s : option string) :
  (forall q, In q before -> exists n, outcome (job q) = inr n) ->
  outcome (job p) = inl e ->
  for_in (before ++ p :: after) s loop_body =
  ((flat_map (fun q => trace (job q)) before ++ trace (job p))%list, inl e).
Proof.
  revert s. induction before as [|q before IH]; intros s Hok Hp.
  - cbn [app flat_map]. destruct (job p) as [t r] eqn:Ej. simpl in Hp. subst r.
    now rewrite (loop_step_raise _ _ _ _ _ Ej).
  - destruct (Hok q (or_introl eq_refl)) as [n Hn].
    destruct (job q) as [t r] eqn:Ej. simpl in Hn. subst r.
    cbn [app]. rewrite (loop_step_ok _ _ _ _ _ Ej).
    rewrite IH by (try (intros q' Hq'; apply Hok; now right); exact Hp).
    cbn [trace outcome fst snd flat_map]. rewrite Ej. cbn [trace fst].
    now rewrite app_assoc.
Qed.

End Loop.

Section Job.

Variables (w : World) (args : Args) (restorer : GFPGANer.t).

(** The events every iteration starts with. *)
Lemma job_raise (p : string) (e : PyExn) :
  enhance w restorer (cv2_imread w p) (aligned args) (only_center_face args)
    true (weight args) = inl e ->
  restore_image w args restorer p =
  ([Debug ("Processing " ++ OsPath.basename p ++ " ...");
    Imread p;
    Enhance (cv2_imread w p) (aligned args) (only_center_face args) true
      (weight args)],
   inl e).
Proof.
  intros He. unfold restore_image.
  destruct (OsPath.splitext (OsPath.basename p)) as [b x].
  rewrite He. reflexivity.
Qed.

Lemma save_face_outcome (b : string) (item : nat * (Image * Image)) :
  outcome (save_face args b item) = inr tt.
Proof. destruct item as [i [c r]]. reflexivity. Qed.

Lemma save_restored_img_outcome (b x : string) (ri : option Image) :
  outcome (save_restored_img args b x ri) = inr tt.
Proof. destruct ri; reflexivity. Qed.

Lemma job_return (p : string) (cs rs : list Image) (ri : option Image) :
  enhance w restorer (cv2_imread w p) (aligned args) (only_center_face args)
    true (weight args) = inr (cs, rs, ri) ->
  restore_image w args restorer p =
  (([Debug ("Processing " ++ OsPath.basename p ++ " ...");
     Imread p;
     Enhance (cv2_imread w p) (aligned args) (only_center_face args) true
       (weight args)] ++
    flat_map
      (fun item =>
         trace (save_face args (fst (OsPath.splitext (OsPath.basename p))) item))
      (enumerate (zip cs rs)) ++
    trace (save_restored_img args (fst (OsPath.splitext (OsPath.basename p)))
             (snd (OsPath.splitext (OsPath.basename p))) ri))%list,
   inr (OsPath.basename p)).
Proof.
  intros He. unfold restore_image.
  destruct (OsPath.splitext (OsPath.basename p)) as [b x].
  rewrite He. cbn [fst snd].
  rewrite (for_in_total _ (save_face args b) (save_face_outcome b)).
  pose proof (save_restored_img_outcome b x ri) as Hs.
  destruct (save_restored_img args b x ri) as [ts rs'].
  simpl in Hs. subst rs'.
  unfold bind, emit, ret, trace. cbn [fst snd app].
  now rewrite !app_nil_r.
Qed.

End Job.

Section Setup.

Variables (w : World) (args : Args).

Lemma set_up_bg_upsampler_returns :
  exists bg, set_up_bg_upsampler w args =
             ((if (bg_upsampler args =? "realesrgan") &&
                  negb (torch_cuda_is_available w)
               then [Warn cpu_warning] else [])%list, inr bg).
Proof.
  unfold set_up_bg_upsampler.
  destruct (bg_upsampler args =? "realesrgan");
    destruct (torch_cuda_is_available w); simpl; eexists; reflexivity.
Qed.

Lemma choose_model_known :
  In (version args) known_versions ->
  exists c, choose_model args = ([], inr c).
Proof.
  unfold choose_model, known_versions. simpl.
  intros [H|[H|[H|[H|[H|[]]]]]]; rewrite <- H; simpl; eexists; reflexivity.
Qed.

Lemma choose_model_unknown :
  ~ In (version args) known_versions ->
  choose_model args = ([], inl (ValueError "Wrong model version!")).
Proof.
  unfold choose_model, known_versions. intros H.
  repeat match goal with
         | |- context [String.eqb ?a ?b] =>
             destruct (String.eqb_spec a b) as [E|_];
             [exfalso; apply H; rewrite E; simpl; tauto |]
         end.
  reflexivity.
Qed.

(** Once the restorer is set up, the rest of the run is the loop and
    the final lookup of [img_name]. *)
Lemma run_args_after_setup (t0 : list Event) (r : GFPGANer.t) :
  set_up_restorer w args = (t0, inr r) ->
  run_args w args =
  ((Makedirs (output args) :: t0 ++
    trace (restore_loop w args r (img_list w args)) ++
    match outcome (restore_loop w args r (img_list w args)) with
    | inr _ => [Debug ("Results are in the [" ++ output args ++ "] folder.")]
    | inl _ => []
    end)%list,
   match outcome (restore_loop w args r (img_list w args)) with
   | inl e => inl e
   | inr (Some n) => inr (output args ++ "/restored_imgs/" ++ n)
   | inr None => inl (UnboundLocalError "img_name")
   end).
Proof.
  intros Hs. unfold run_args. cbv zeta. rewrite Hs.
  unfold bind at 2. cbn [fst snd].
  destruct (restore_loop w args r (img_list w args)) as [tl [e|[n|]]];
    unfold bind, emit, ret, raise, trace, outcome; cbn [fst snd app];
    rewrite ?app_nil_r; reflexivity.
Qed.

Lemma run_args_setup_raises (t0 : list Event) (e : PyExn) :
  set_up_restorer w args = (t0, inl e) ->
  run_args w args = (Makedirs (output args) :: t0, inl e).
Proof. intros Hs. unfold run_args. rewrite Hs. reflexivity. Qed.

End Setup.

Section SetupRestorer.

Variables (w : World) (args : Args).

Lemma set_up_restorer_known :
  In (version args) known_versions ->
  exists c bg,
    choose_model args = ([], inr c) /\
    outcome (set_up_bg_upsampler w args) = inr bg /\
    set_up_restorer w args =
    (((if (bg_upsampler args =? "realesrgan") && negb (torch_cuda_is_available w)
       then [Warn cpu_warning] else []) ++
      [NewRestorer (GFPGANer.mk (determine_model_path w c) (upscale args)
                      (arch c) (channel_multiplier c) bg)])%list,
     inr (GFPGANer.mk (determine_model_path w c) (upscale args)
            (arch c) (channel_multiplier c) bg)).
Proof.
  intros Hk.
  destruct (choose_model_known args Hk) as [c Hc].
  destruct (set_up_bg_upsampler_returns w args) as [bg Hbg].
  exists c, bg. split; [exact Hc |].
  split; [now rewrite Hbg |].
  unfold set_up_restorer. rewrite Hbg, Hc. reflexivity.
Qed.

Lemma set_up_restorer_unknown :
  ~ In (version args) known_versions ->
  set_up_restorer w args =
  ((if (bg_upsampler args =? "realesrgan") && negb (torch_cuda_is_available w)
    then [Warn cpu_warning] else [])%list,
   inl (ValueError "Wrong model version!")).
Proof.
  intros Hu.
  destruct (set_up_bg_upsampler_returns w args) as [bg Hbg].
  unfold set_up_restorer.
  rewrite Hbg, (choose_model_unknown args Hu).
  unfold bind. cbn [fst snd]. now rewrite app_nil_r.
Qed.

Lemma set_up_restorer_written :
  written (trace (set_up_restorer w args)) = [].
Proof.
  destruct (in_dec string_dec (version args) known_versions) as [Hk|Hu].
  - destruct (set_up_restorer_known Hk) as [c [bg [_ [_ ->]]]].
    cbn [trace fst]. rewrite written_app.
    destruct (_ && _); reflexivity.
  - rewrite (set_up_restorer_unknown Hu).
    destruct (_ && _); reflexivity.
Qed.

Lemma determine_model_path_order (c : ModelChoice) :
  PyStr.startswith (model_name c ++ ".pth") OsPath.sep = false ->
  determine_model_path w c =
  if os_path_isfile w (cache_path c) then cache_path c
  else if os_path_isfile w (weights_path c) then weights_path c
  else url c.
Proof.
  intros Hn. unfold determine_model_path, cache_path, weights_path.
  rewrite !JoinFacts.join_file by (try exact Hn; try reflexivity; discriminate).
  change ("experiments/pretrained_models" ++ "/" ++ model_name c ++ ".pth")
    with ("experiments/pretrained_models/" ++ model_name c ++ ".pth").
  change ("gfpgan/weights" ++ "/" ++ model_name c ++ ".pth")
    with ("gfpgan/weights/" ++ model_name c ++ ".pth").
  destruct (os_path_isfile w ("experiments/pretrained_models/" ++ _)) eqn:E1;
    cbn [negb]; [now rewrite E1 |].
  destruct (os_path_isfile w ("gfpgan/weights/" ++ _)) eqn:E2; reflexivity.
Qed.

End SetupRestorer.

Section TraceShape.

Variables (w : World) (args : Args) (restorer : GFPGANer.t).
Variable P : Event -> Prop.

Hypothesis P_debug : forall m, P (Debug m).
Hypothesis P_imread : forall p, P (Imread p).
Hypothesis P_imwrite : forall img p, P (Imwrite img p).
Hypothesis P_enhance :
  forall img, P (Enhance img (aligned args) (only_center_face args) true
                   (weight args)).

Lemma save_face_trace_Forall (b : string) (item : nat * (Image * Image)) :
  Forall P (trace (save_face args b item)).
Proof. destruct item as [i [c r]]. repeat constructor; apply P_imwrite. Qed.

Lemma job_trace_Forall (p : string) :
  Forall P (trace (restore_image w args restorer p)).
Proof.
  destruct (enhance w restorer (cv2_imread w p) (aligned args)
              (only_center_face args) true (weight args))
    as [e|[[cs rs] ri]] eqn:He.
  - rewrite (job_raise _ _ _ _ _ He). repeat constructor; auto.
  - rewrite (job_return _ _ _ _ _ _ _ He). cbn [trace fst].
    apply Forall_app. split; [repeat constructor; auto |].
    apply Forall_app. split.
    + apply Forall_flat_map, Forall_forall.
      intros item _. apply save_face_trace_Forall.
    + destruct ri; repeat constructor. apply P_imwrite.
Qed.

Lemma loop_trace_Forall (imgs : list string) (s : option string) :
  Forall P (trace (for_in imgs s
                     (fun img_path _ =>
                        n <- restore_image w args restorer img_path ;;
                        ret (Some n)))).
Proof.
  revert s. induction imgs as [|p imgs IH]; intros s; [constructor |].
  pose proof (job_trace_Forall p) as Hj.
  destruct (restore_image w args restorer p) as [t [e|n]] eqn:Ej.
  - rewrite (loop_step_raise _ _ _ _ _ _ _ _ Ej). exact Hj.
  - rewrite (loop_step_ok _ _ _ _ _ _ _ _ Ej). cbn [trace fst].
    apply Forall_app. split; [exact Hj | apply IH].
Qed.

End TraceShape.

End RunFacts.

(** ** Facts about the artifact lay-out *)

Module LayoutFacts.

Section Layout.

Variables (w : World) (args : Args) (restorer : GFPGANer.t).

Lemma save_face_written (b : string) (idx : nat) (c r : Image) :
  written (trace (save_face args b (idx, (c, r)))) = face_artifacts args b idx.
Proof.
  unfold save_face, face_artifacts, suffix_part.
  destruct (suffix args); reflexivity.
Qed.

Lemma save_faces_written (b : string) (l : list (Image * Image)) (k : nat) :
  written (flat_map (fun item => trace (save_face args b item)) (enumerate_from k l)) =
  flat_map (face_artifacts args b) (seq k (length l)).
Proof.
  revert k. induction l as [|[c r] l IH]; intros k; [reflexivity |].
  cbn [enumerate_from flat_map length seq].
  now rewrite RunFacts.written_app, save_face_written, IH.
Qed.

Lemma save_restored_img_written (b e : string) (ri : option Image) :
  written (trace (save_restored_img args b e ri)) =
  match ri with Some _ => [full_image_artifact args b e] | None => [] end.
Proof.
  destruct ri as [g|]; [| reflexivity].
  unfold save_restored_img, full_image_artifact, suffix_part.
  destruct (suffix args); reflexivity.
Qed.

Lemma job_written (p : string) (cs rs : list Image) (ri : option Image) :
  enhance w restorer (cv2_imread w p) (aligned args) (only_center_face args)
    true (weight args) = inr (cs, rs, ri) ->
  written (trace (restore_image w args restorer p)) =
  job_artifacts args p (Nat.min (length cs) (length rs))
    (match ri with Some _ => true | None => false end).
Proof.
  intros He. rewrite (RunFacts.job_return w args restorer p cs rs ri He).
  cbn [trace fst]. rewrite !RunFacts.written_app.
  unfold enumerate, zip. rewrite save_faces_written, save_restored_img_written.
  rewrite length_combine. unfold job_artifacts.
  destruct ri; reflexivity.
Qed.

End Layout.

Section Names.

Variable args : Args.

(** A face-level file name determines the basename it was built
    from: the index has no underscore, so the name is cut at its last
    underscore before the common tail. *)
Lemma face_name_cut (b1 b2 t : string) (i j : nat) :
  b1 ++ "_" ++ PyStr.format_02d i ++ t = b2 ++ "_" ++ PyStr.format_02d j ++ t ->
  b1 = b2.
Proof.
  intros H.
  change (b1 ++ String "_" "" ++ PyStr.format_02d i ++ t =
          b2 ++ String "_" "" ++ PyStr.format_02d j ++ t) in H.
  rewrite <- !(StrFacts.app_assoc (String "_" "")) in H.
  rewrite <- !StrFacts.app_assoc in H.
  apply StrFacts.app_inv_tail in H.
  cbn [String.append] in H.
  rewrite !StrFacts.app_assoc in H. cbn [String.append] in H.
  apply StrFacts.cut_at_last in H; try apply StrFacts.format_02d_no_underscore.
  tauto.
Qed.

(** So does the name of a full restored image: under [auto] the
    extension has no dot, otherwise it is the same for all images. *)
Lemma full_name_cut (b1 b2 e1 e2 : string) :
  b1 ++ suffix_part args ++ "." ++
    (if ext args =? "auto"
     then PyStr.drop 1 (snd (OsPath.splitext e1)) else ext args) =
  b2 ++ suffix_part args ++ "." ++
    (if ext args =? "auto"
     then PyStr.drop 1 (snd (OsPath.splitext e2)) else ext args) ->
  b1 = b2.
Proof.
  intros H. destruct (ext args =? "auto").
  - rewrite <- (StrFacts.app_assoc b1), <- (StrFacts.app_assoc b2) in H.
    cbn [String.append] in H.
    apply StrFacts.cut_at_last in H; try apply StrFacts.splitext_ext_no_dot.
    destruct H as [H _]. now apply StrFacts.app_inv_tail in H.
  - now apply StrFacts.app_inv_tail in H.
Qed.

End Names.

Section Disjoint.

Variable args : Args.

(** Two paths built under the output directory are equal only if
    their parts below it are. *)
Lemma join3_tail_eq (cat1 cat2 n1 n2 : string) :
  PyStr.startswith cat1 OsPath.sep = false -> cat1 <> "" ->
  PyStr.endswith cat1 OsPath.sep = false ->
  PyStr.startswith cat2 OsPath.sep = false -> cat2 <> "" ->
  PyStr.endswith cat2 OsPath.sep = false ->
  PyStr.startswith n1 OsPath.sep = false ->
  PyStr.startswith n2 OsPath.sep = false ->
  OsPath.join3 (output args) cat1 n1 = OsPath.join3 (output args) cat2 n2 ->
  cat1 ++ "/" ++ n1 = cat2 ++ "/" ++ n2.
Proof.
  intros S1 N1 E1 S2 N2 E2 Hn1 Hn2 H.
  destruct (JoinFacts.join3_shape (output args)) as [g Hg].
  rewrite (Hg cat1 n1 S1 N1 E1 Hn1), (Hg cat2 n2 S2 N2 E2 Hn2) in H.
  now apply StrFacts.app_inv_head, StrFacts.app_inv_head in H.
Qed.

Lemma face_name_start (b t : string) :
  PyStr.contains OsPath.sep b = false ->
  PyStr.startswith (b ++ "_" ++ t) OsPath.sep = false.
Proof. intros Hb. now apply StrFacts.startswith_app. Qed.

Lemma full_name_start (b t : string) :
  PyStr.contains OsPath.sep b = false ->
  PyStr.startswith (b ++ suffix_part args ++ "." ++ t) OsPath.sep = false.
Proof.
  intros Hb. apply StrFacts.startswith_app; [exact Hb |].
  unfold suffix_part. destruct (suffix args); reflexivity.
Qed.

(** The category and the file name of every artifact of an image. *)
Lemma artifact_form (p : string) (faces : nat) (full : bool) (x : string) :
  In x (job_artifacts args p faces full) ->
  let b := fst (OsPath.splitext (OsPath.basename p)) in
  let e := snd (OsPath.splitext (OsPath.basename p)) in
  exists cat name,
    x = OsPath.join3 (output args) cat name /\
    PyStr.startswith name OsPath.sep = false /\
    ((cat = "cropped_faces" /\
      exists i, name = b ++ "_" ++ PyStr.format_02d i ++ ".png") \/
     (cat = "restored_faces" /\
      exists i, name = b ++ "_" ++ PyStr.format_02d i ++ suffix_part args ++ ".png") \/
     (cat = "cmp" /\
      exists i, name = b ++ "_" ++ PyStr.format_02d i ++ ".png") \/
     (cat = "restored_imgs" /\
      name = b ++ suffix_part args ++ "." ++
             (if ext args =? "auto" then PyStr.drop 1 e else ext args))).
Proof.
  intros Hx b e.
  assert (Hb : PyStr.contains OsPath.sep b = false)
    by apply StrFacts.splitext_base_no_sep, StrFacts.basename_no_sep.
  unfold job_artifacts in Hx. fold b e in Hx.
  apply in_app_or in Hx as [Hx|Hx].
  - apply in_flat_map in Hx as [i [_ Hx]].
    destruct Hx as [<-|[<-|[<-|[]]]]; do 2 eexists;
      (split; [reflexivity |]); (split; [now apply face_name_start |]).
    + left. split; [reflexivity | now exists i].
    + right. left. split; [reflexivity | now exists i].
    + right. right. left. split; [reflexivity | now exists i].
  - destruct full; [| destruct Hx].
    destruct Hx as [<-|[]]. do 2 eexists.
    split; [reflexivity |]. split; [now apply full_name_start |].
    right. right. right. now split.
Qed.

End Disjoint.

End LayoutFacts.

(** ** Facts about the run with failing calls *)

Module IoFacts.

Lemma writes_app (a b : list Event) : writes (a ++ b) = (writes a ++ writes b)%list.
Proof. apply flat_map_app. Qed.

Lemma in_writes (t : list Event) (img : Image) (p : string) :
  In (img, p) (writes t) -> In (Imwrite img p) t.
Proof.
  intros H. apply in_flat_map in H as [ev [Hev H]].
  destruct ev; cbn in H; try contradiction. destruct H as [H|[]].
  injection H as -> ->. exact Hev.
Qed.

Lemma written_writes (t : list Event) : written t = map snd (writes t).
Proof.
  induction t as [|ev t IH]; [reflexivity |].
  unfold written, writes in *. cbn [flat_map].
  rewrite map_app, IH. now destruct ev.
Qed.

Lemma prefix_app {A : Type} (t f1 f2 : list A) :
  (exists k, t = firstn k f1) -> exists k, t = firstn k (f1 ++ f2).
Proof.
  intros [k ->]. exists (Nat.min k (length f1)).
  rewrite firstn_app.
  replace (Nat.min k (length f1) - length f1) with 0 by lia.
  rewrite firstn_O, app_nil_r.
  destruct (Nat.le_ge_cases k (length f1)) as [H|H].
  - now rewrite Nat.min_l.
  - rewrite Nat.min_r by exact H.
    now rewrite firstn_all, firstn_all2.
Qed.

(** *** The writes of a computation *)

Lemma within_ret {A : Type} (a : A) : writes_within (ret a) [].
Proof. reflexivity. Qed.

Lemma within_raise {A : Type} (e : PyExn) (full : list (Image * string)) :
  writes_within (@raise A e) full.
Proof. now exists 0. Qed.

Lemma within_emit (ev : Event) : writes_within (emit ev) (writes [ev]).
Proof. reflexivity. Qed.

Lemma within_call (err : option PyExn) : writes_within (Io.call err) [].
Proof. destruct err; [now exists 0 | reflexivity]. Qed.

Lemma within_nil {A : Type} (m : M A) :
  writes_within m [] -> writes (trace m) = [].
Proof.
  unfold writes_within. destruct (outcome m); [| tauto].
  intros [k ->]. now destruct k.
Qed.

Lemma within_bind {A B : Type} (m : M A) (k : A -> M B)
    (f1 f2 : list (Image * string)) :
  writes_within m f1 ->
  (forall a, outcome m = inr a -> writes_within (k a) f2) ->
  writes_within (bind m k) (f1 ++ f2).
Proof.
  unfold writes_within. destruct m as [t [e|a]]; cbn [outcome snd trace fst bind].
  - intros H _. now apply prefix_app.
  - intros H Hk. specialize (Hk a eq_refl).
    destruct (k a) as [t' [e'|b]]; cbn [outcome snd trace fst] in *;
      rewrite writes_app, H.
    + destruct Hk as [n ->]. exists (length f1 + n).
      now rewrite firstn_app_2.
    + now rewrite Hk.
Qed.

Lemma within_bind_l {A B : Type} (m : M A) (k : A -> M B)
    (full : list (Image * string)) :
  writes_within m [] ->
  (forall a, outcome m = inr a -> writes_within (k a) full) ->
  writes_within (bind m k) full.
Proof. apply (within_bind m k [] full). Qed.

Lemma within_bind_r {A B : Type} (m : M A) (k : A -> M B)
    (full : list (Image * string)) :
  writes_within m full ->
  (forall a, outcome m = inr a -> writes_within (k a) []) ->
  writes_within (bind m k) full.
Proof.
  intros Hm Hk. rewrite <- (app_nil_r full). now apply within_bind.
Qed.

Lemma within_for_in {A S : Type} (body : A -> S -> M S)
    (F : A -> list (Image * string)) (l : list A) (s : S) :
  (forall x s', In x l -> writes_within (body x s') (F x)) ->
  writes_within (for_in l s body) (flat_map F l).
Proof.
  revert s. induction l as [|x l IH]; intros s Hb; [reflexivity |].
  cbn [for_in flat_map]. apply within_bind.
  - apply Hb. now left.
  - intros s' _. apply IH. intros y s'' Hy. apply Hb. now right.
Qed.

(** *** How a sequence ends *)

Lemma bind_inr_inv {A B : Type} (m : M A) (k : A -> M B) (b : B) :
  outcome (bind m k) = inr b ->
  exists a, outcome m = inr a /\ outcome (k a) = inr b /\
            trace (bind m k) = (trace m ++ trace (k a))%list.
Proof.
  destruct m as [t [e|a]]; unfold outcome, trace; cbn; [discriminate |].
  intros H. exists a. destruct (k a) as [t' r]. cbn in *. now repeat split.
Qed.

Lemma bind_inl_inv {A B : Type} (m : M A) (k : A -> M B) (e : PyExn) :
  outcome (bind m k) = inl e ->
  outcome m = inl e \/ exists a, outcome m = inr a /\ outcome (k a) = inl e.
Proof.
  destruct m as [t [e'|a]]; unfold outcome; cbn; [intros [= ->]; now left |].
  intros H. right. exists a. destruct (k a) as [t' r]. cbn in *. now split.
Qed.

Lemma trace_bind_inl {A B : Type} (m : M A) (k : A -> M B) (e : PyExn) :
  outcome m = inl e -> bind m k = (trace m, inl e).
Proof. destruct m as [t [e'|a]]; cbn; [now intros [= ->] | discriminate]. Qed.

Lemma trace_bind_inr {A B : Type} (m : M A) (k : A -> M B) (a : A) :
  outcome m = inr a ->
  bind m k = ((trace m ++ trace (k a))%list, outcome (k a)).
Proof.
  destruct m as [t [e'|a']]; cbn; [discriminate |].
  intros [= ->]. now destruct (k a).
Qed.

Lemma forall_bind {A B : Type} (Q : Event -> Prop) (m : M A) (k : A -> M B) :
  Forall Q (trace m) -> (forall a, Forall Q (trace (k a))) ->
  Forall Q (trace (bind m k)).
Proof.
  intros Hm Hk. destruct m as [t [e|a]]; cbn [bind trace fst] in *; [exact Hm |].
  specialize (Hk a). destruct (k a) as [t' r]. cbn [trace fst] in *.
  apply Forall_app. now split.
Qed.

Lemma forall_for_in {A S : Type} (Q : Event -> Prop) (body : A -> S -> M S)
    (l : list A) (s : S) :
  (forall x s', Forall Q (trace (body x s'))) ->
  Forall Q (trace (for_in l s body)).
Proof.
  intros Hb. revert s. induction l as [|x l IH]; intros s; [constructor |].
  cbn [for_in]. apply forall_bind; [apply Hb | intros s'; apply IH].
Qed.

End IoFacts.

(** ** Facts about the blocks of the run with failing calls *)

Module IoRunFacts.

Section Loop.

Variable job : string -> M string.

Hypothesis job_name :
  forall p n, outcome (job p) = inr n -> n = OsPath.basename p.

Abbreviation body :=
  (fun (img_path : string) (_ : option string) =>
     n <- job img_path ;; ret (Some n)).

Lemma step_ok (p : string) (l : list string) (s : option string) (n : string) :
  outcome (job p) = inr n ->
  for_in (p :: l) s body =
  ((trace (job p) ++ trace (for_in l (Some n) body))%list,
   outcome (for_in l (Some n) body)).
Proof.
  intros Hj. cbn [for_in].
  rewrite (IoFacts.trace_bind_inr _ _ (Some n)).
  - rewrite (IoFacts.trace_bind_inr _ _ n Hj). cbn [ret trace fst].
    now rewrite app_nil_r.
  - rewrite (IoFacts.trace_bind_inr _ _ n Hj). reflexivity.
Qed.

Lemma step_raise (p : string) (l : list string) (s : option string) (e : PyExn) :
  outcome (job p) = inl e ->
  for_in (p :: l) s body = (trace (job p), inl e).
Proof.
  intros Hj. cbn [for_in].
  rewrite (IoFacts.trace_bind_inl _ _ e).
  - now rewrite (IoFacts.trace_bind_inl _ _ e Hj).
  - now rewrite (IoFacts.trace_bind_inl _ _ e Hj).
Qed.

Lemma last_basename (l : list string) (s : option string) :
  l <> [] ->
  last (map (fun p => Some (OsPath.basename p)) l) s =
  Some (OsPath.basename (last l "")).
Proof.
  destruct l as [|p l]; [contradiction | intros _].
  revert p s. induction l as [|q l IH]; intros p s; [reflexivity |].
  change (last (map (fun p => Some (OsPath.basename p)) (p :: q :: l)) s)
    with (last (map (fun p => Some (OsPath.basename p)) (q :: l)) s).
  rewrite IH. reflexivity.
Qed.

(** A loop that ends has run every iteration to its end. *)
Lemma loop_inr (l : list string) (s v : option string) :
  outcome (for_in l s body) = inr v ->
  (forall p, In p l -> outcome (job p) = inr (OsPath.basename p)) /\
  trace (for_in l s body) = flat_map (fun p => trace (job p)) l /\
  v = match l with
      | [] => s
      | _ => Some (OsPath.basename (last l ""))
      end.
Proof.
  revert s. induction l as [|p l IH]; intros s H.
  - cbn in H. injection H as <-. repeat split. intros p [].
  - destruct (outcome (job p)) as [e|n] eqn:Ej.
    + rewrite (step_raise _ _ _ _ Ej) in H. discriminate.
    + pose proof (job_name _ _ Ej) as ->.
      rewrite (step_ok _ _ _ _ Ej) in H |- *. cbn [outcome snd trace fst] in *.
      destruct (IH _ H) as [Hall [Ht Hv]]. repeat split.
      * intros q [<-|Hq]; [exact Ej | now apply Hall].
      * now rewrite Ht.
      * rewrite Hv. destruct l; reflexivity.
Qed.

(** When every iteration ends, so does the loop. *)
Lemma loop_ok (l : list string) (s : option string) :
  (forall p, In p l -> exists n, outcome (job p) = inr n) ->
  outcome (for_in l s body) =
  inr match l with
      | [] => s
      | _ => Some (OsPath.basename (last l ""))
      end.
Proof.
  revert s. induction l as [|p l IH]; intros s Hall; [reflexivity |].
  destruct (Hall p (or_introl eq_refl)) as [n Hn].
  pose proof (job_name _ _ Hn) as ->.
  rewrite (step_ok _ _ _ _ Hn). cbn [outcome snd].
  rewrite IH by (intros q Hq; apply Hall; now right).
  destruct l; reflexivity.
Qed.

(** Whatever the end, the loop has run a prefix of the iterations. *)
Lemma loop_trace (l : list string) (s : option string) :
  exists k, trace (for_in l s body) = flat_map (fun p => trace (job p)) (firstn k l).
Proof.
  revert s. induction l as [|p l IH]; intros s; [now exists 0 |].
  destruct (outcome (job p)) as [e|n] eqn:Ej.
  - rewrite (step_raise _ _ _ _ Ej). exists 1. cbn. now rewrite app_nil_r.
  - rewrite (step_ok _ _ _ _ Ej). destruct (IH (Some n)) as [k Hk].
    exists (S k). cbn [trace fst firstn flat_map]. now rewrite Hk.
Qed.

End Loop.

Section Blocks.

Variables (h : Io.Host) (w : World) (args : Args).

(** *** What each block writes *)

Lemma within_makedirs (path : string) : writes_within (Io.makedirs h path) [].
Proof.
  unfold Io.makedirs. apply (IoFacts.within_bind _ _ [] []).
  - apply IoFacts.within_call.
  - intros _ _. apply (IoFacts.within_emit (Makedirs path)).
Qed.

Lemma within_imwrite (img : Image) (path : string) :
  writes_within (Io.imwrite h img path) [(img, path)].
Proof.
  unfold Io.imwrite. apply (IoFacts.within_bind _ _ [] [(img, path)]).
  - apply within_makedirs.
  - intros _ _. destruct (Io.cv2_imwrite h path img) as [e|[|]]; cbn [negb].
    + apply IoFacts.within_raise.
    + apply (IoFacts.within_emit (Imwrite img path)).
    + apply IoFacts.within_raise.
Qed.

Lemma within_save_face (b : string) (item : nat * (Image * Image)) :
  writes_within (Io.save_face h args b item) (face_writes args b item).
Proof.
  destruct item as [idx [c r]]. unfold Io.save_face, face_writes, suffix_part.
  apply (IoFacts.within_bind _ _ [_] [_; _]); [apply within_imwrite | intros _ _].
  apply (IoFacts.within_bind _ _ [_] [_]).
  - destruct (suffix args); apply within_imwrite.
  - intros _ _. apply (IoFacts.within_bind _ _ [] [_]).
    + apply IoFacts.within_call.
    + intros _ _. apply within_imwrite.
Qed.

Lemma within_save_restored_img (b e : string) (ri : option Image) :
  writes_within (Io.save_restored_img h args b e ri)
    match ri with
    | Some img => [(img, full_image_artifact args b e)]
    | None => []
    end.
Proof.
  destruct ri as [g|]; [| reflexivity].
  unfold Io.save_restored_img, full_image_artifact, suffix_part.
  destruct (suffix args); apply within_imwrite.
Qed.

Lemma io_job_raise (r : GFPGANer.t) (p : string) (e : PyExn) :
  enhance w r (cv2_imread w p) (aligned args) (only_center_face args) true
    (weight args) = inl e ->
  Io.restore_image h w args r p =
  ([Debug ("Processing " ++ OsPath.basename p ++ " ...");
    Imread p;
    Enhance (cv2_imread w p) (aligned args) (only_center_face args) true
      (weight args)],
   inl e).
Proof.
  intros He. unfold Io.restore_image.
  destruct (OsPath.splitext (OsPath.basename p)) as [b x].
  rewrite He. reflexivity.
Qed.

(** The iteration on [p] in its parts, when the engine returns. *)
Lemma io_job_return (r : GFPGANer.t) (p : string) (cs rs : list Image)
    (ri : option Image) :
  enhance w r (cv2_imread w p) (aligned args) (only_center_face args) true
    (weight args) = inr (cs, rs, ri) ->
  Io.restore_image h w args r p =
  (emit (Debug ("Processing " ++ OsPath.basename p ++ " ...")) ;;
   emit (Imread p) ;;
   emit (Enhance (cv2_imread w p) (aligned args) (only_center_face args) true
           (weight args)) ;;
   for_in (enumerate (zip cs rs)) tt
     (fun item _ => Io.save_face h args (basename_of p) item) ;;
   Io.save_restored_img h args (basename_of p)
     (snd (OsPath.splitext (OsPath.basename p))) ri ;;
   ret (OsPath.basename p))%py.
Proof.
  intros He. unfold Io.restore_image, basename_of.
  destruct (OsPath.splitext (OsPath.basename p)) as [b x].
  rewrite He. reflexivity.
Qed.

Lemma within_job (r : GFPGANer.t) (p : string) (res : EnhanceResult) :
  enhance w r (cv2_imread w p) (aligned args) (only_center_face args) true
    (weight args) = inr res ->
  writes_within (Io.restore_image h w args r p) (job_writes args p res).
Proof.
  destruct res as [[cs rs] ri]. intros He.
  rewrite (io_job_return r p cs rs ri He). unfold job_writes.
  apply IoFacts.within_bind_l; [apply (IoFacts.within_emit (Debug _)) |].
  intros _ _.
  apply IoFacts.within_bind_l; [apply (IoFacts.within_emit (Imread _)) |].
  intros _ _.
  apply IoFacts.within_bind_l;
    [apply (IoFacts.within_emit (Enhance _ _ _ _ _)) |].
  intros _ _.
  apply IoFacts.within_bind.
  - apply IoFacts.within_for_in. intros item _ _. apply within_save_face.
  - intros _ _.
    apply IoFacts.within_bind_r; [apply within_save_restored_img |].
    intros _ _. apply IoFacts.within_ret.
Qed.

Lemma within_set_up_bg : writes_within (Io.set_up_bg_upsampler h w args) [].
Proof.
  unfold Io.set_up_bg_upsampler.
  destruct (bg_upsampler args =? "realesrgan"); [| reflexivity].
  destruct (torch_cuda_is_available w); cbn [negb]; [| reflexivity].
  apply (IoFacts.within_bind _ _ [] []); [apply IoFacts.within_call |].
  intros _ _. reflexivity.
Qed.

Lemma within_choose_model : writes_within (choose_model args) [].
Proof.
  destruct (in_dec string_dec (version args) known_versions) as [Hk|Hu].
  - destruct (RunFacts.choose_model_known args Hk) as [c ->]. reflexivity.
  - rewrite (RunFacts.choose_model_unknown args Hu). now exists 0.
Qed.

Lemma within_set_up : writes_within (Io.set_up_restorer h w args) [].
Proof.
  unfold Io.set_up_restorer.
  apply (IoFacts.within_bind _ _ [] []); [apply within_set_up_bg | intros bg _].
  apply (IoFacts.within_bind _ _ [] []); [apply within_choose_model | intros c _].
  apply (IoFacts.within_bind _ _ [] []); [apply IoFacts.within_call | intros _ _].
  apply (IoFacts.within_bind _ _ [] []);
    [apply (IoFacts.within_emit (NewRestorer _)) | intros _ _].
  apply IoFacts.within_ret.
Qed.

Lemma within_loop (r : GFPGANer.t) (res : string -> EnhanceResult)
    (l : list string) :
  (forall p, In p l ->
             enhance w r (cv2_imread w p) (aligned args) (only_center_face args)
               true (weight args) = inr (res p)) ->
  writes_within (Io.restore_loop h w args r l)
    (flat_map (fun p => job_writes args p (res p)) l).
Proof.
  intros Hres. unfold Io.restore_loop. apply IoFacts.within_for_in.
  intros p s Hp.
  apply IoFacts.within_bind_r; [now apply within_job, Hres |].
  intros n _. apply IoFacts.within_ret.
Qed.

Lemma within_run (res : string -> EnhanceResult) :
  (forall r p, outcome (Io.set_up_restorer h w args) = inr r ->
               In p (img_list w args) ->
               enhance w r (cv2_imread w p) (aligned args) (only_center_face args)
                 true (weight args) = inr (res p)) ->
  writes_within (Io.run_args h w args)
    (flat_map (fun p => job_writes args p (res p)) (img_list w args)).
Proof.
  intros Hres. unfold Io.run_args. cbv zeta.
  apply IoFacts.within_bind_l; [apply within_makedirs | intros _ _].
  apply IoFacts.within_bind_l; [apply within_set_up | intros r Hr].
  apply IoFacts.within_bind_r; [apply within_loop; intros p; now apply Hres |].
  intros [n|] _.
  - apply IoFacts.within_bind_l;
      [apply (IoFacts.within_emit (Debug _)) | intros _ _; reflexivity].
  - apply IoFacts.within_bind_l;
      [apply (IoFacts.within_emit (Debug _)) | intros _ _; now exists 0].
Qed.

End Blocks.

Section Ends.

Variables (h : Io.Host) (w : World) (args : Args).

Abbreviation L := (Io.raised_by_library h w).

Ltac inl_inv H := apply IoFacts.bind_inl_inv in H as [H | [? [_ H]]].

(** *** Where an exception comes from *)

Lemma raises_call (err : option PyExn) (e : PyExn) :
  outcome (Io.call err) = inl e -> err = Some e.
Proof. destruct err; cbn; [now intros [= ->] | discriminate]. Qed.

Lemma raises_makedirs (path : string) (e : PyExn) :
  outcome (Io.makedirs h path) = inl e -> Io.os_makedirs h path = Some e.
Proof.
  unfold Io.makedirs. intros H. inl_inv H; [now apply raises_call | discriminate].
Qed.

Lemma raises_imwrite (img : Image) (path : string) (e : PyExn) :
  outcome (Io.imwrite h img path) = inl e -> L e.
Proof.
  unfold Io.imwrite. intros H. inl_inv H.
  - left. eexists. apply raises_makedirs, H.
  - destruct (Io.cv2_imwrite h path img) as [e'|[|]] eqn:Ew; cbn in H;
      try discriminate; injection H as <-.
    + do 5 right. left. now exists path, img.
    + do 6 right. split; [reflexivity | now exists path, img].
Qed.

Lemma raises_save_face (b : string) (item : nat * (Image * Image)) (e : PyExn) :
  outcome (Io.save_face h args b item) = inl e -> L e.
Proof.
  destruct item as [idx [c r]]. unfold Io.save_face. intros H.
  inl_inv H; [now apply raises_imwrite in H |].
  inl_inv H; [now apply raises_imwrite in H |].
  inl_inv H; [| now apply raises_imwrite in H].
  apply raises_call in H. do 4 right. left. now exists c, r.
Qed.

Lemma raises_save_restored_img (b x : string) (ri : option Image) (e : PyExn) :
  outcome (Io.save_restored_img h args b x ri) = inl e -> L e.
Proof.
  destruct ri as [g|]; [| discriminate].
  unfold Io.save_restored_img. apply raises_imwrite.
Qed.

Lemma raises_for_in {A S : Type} (body : A -> S -> M S) (l : list A) (s : S)
    (e : PyExn) :
  outcome (for_in l s body) = inl e ->
  exists x s', In x l /\ outcome (body x s') = inl e.
Proof.
  revert s. induction l as [|x l IH]; intros s H; [discriminate |].
  cbn [for_in] in H. inl_inv H.
  - exists x, s. split; [now left | exact H].
  - destruct (IH _ H) as [y [s' [Hy He]]]. exists y, s'. split; [now right | exact He].
Qed.

Lemma raises_job (r : GFPGANer.t) (p : string) (e : PyExn) :
  outcome (Io.restore_image h w args r p) = inl e -> L e.
Proof.
  destruct (enhance w r (cv2_imread w p) (aligned args) (only_center_face args)
              true (weight args)) as [e'|[[cs rs] ri]] eqn:He.
  - rewrite (io_job_raise h w args r p e' He). intros [= <-].
    do 3 right. left. do 6 eexists. exact He.
  - rewrite (io_job_return h w args r p cs rs ri He). intros H.
    inl_inv H; [discriminate |].
    inl_inv H; [discriminate |].
    inl_inv H; [discriminate |].
    inl_inv H.
    + apply raises_for_in in H as [item [s [_ H]]].
      now apply raises_save_face in H.
    + inl_inv H; [now apply raises_save_restored_img in H | discriminate].
Qed.

Lemma raises_loop (r : GFPGANer.t) (l : list string) (e : PyExn) :
  outcome (Io.restore_loop h w args r l) = inl e -> L e.
Proof.
  unfold Io.restore_loop. intros H.
  apply raises_for_in in H as [p [s [_ H]]].
  inl_inv H; [now apply raises_job in H | discriminate].
Qed.

(** *** The set-up *)

Lemma set_up_bg_cases :
  (exists bg,
     Io.set_up_bg_upsampler h w args =
     ((if (bg_upsampler args =? "realesrgan") && negb (torch_cuda_is_available w)
       then [Warn cpu_warning] else [])%list, inr bg)) \/
  (exists e,
     Io.set_up_bg_upsampler h w args = ([], inl e) /\ L e /\
     (bg_upsampler args =? "realesrgan") && negb (torch_cuda_is_available w) = false).
Proof.
  unfold Io.set_up_bg_upsampler.
  destruct (bg_upsampler args =? "realesrgan"); [| left; eexists; reflexivity].
  destruct (torch_cuda_is_available w); cbn [negb andb];
    [| left; eexists; reflexivity].
  destruct (Io.RealESRGANer_init h _) as [e|] eqn:Ei.
  - right. exists e. repeat split. right. left. eexists. exact Ei.
  - left. eexists. reflexivity.
Qed.

(** The set-up emits the warning, if any, and then the restorer it has
    built, if it gets that far. *)
Lemma set_up_cases :
  trace (Io.set_up_restorer h w args) =
    ((if (bg_upsampler args =? "realesrgan") && negb (torch_cuda_is_available w)
      then [Warn cpu_warning] else []) ++
     match outcome (Io.set_up_restorer h w args) with
     | inr r => [NewRestorer r]
     | inl _ => []
     end)%list /\
  match outcome (Io.set_up_restorer h w args) with
  | inr _ => In (version args) known_versions
  | inl e =>
      (e = ValueError "Wrong model version!" /\ ~ In (version args) known_versions) \/
      L e
  end.
Proof.
  unfold Io.set_up_restorer.
  destruct set_up_bg_cases as [[bg ->] | [e [-> [He ->]]]];
    [| split; [reflexivity | now right]].
  destruct (in_dec string_dec (version args) known_versions) as [Hk|Hu].
  - destruct (RunFacts.choose_model_known args Hk) as [c ->].
    cbn [bind ret app fst snd].
    destruct (Io.GFPGANer_init h _) as [e|] eqn:Ei;
      cbn [bind ret emit raise Io.call app fst snd trace outcome].
    + rewrite ?app_nil_r. split; [reflexivity |]. right.
      do 2 right. left. eexists. exact Ei.
    + rewrite ?app_nil_r. split; [reflexivity | exact Hk].
  - rewrite (RunFacts.choose_model_unknown args Hu).
    cbn [bind ret emit raise app fst snd trace outcome].
    rewrite ?app_nil_r. split; [reflexivity | now left].
Qed.

(** *** An iteration that ends *)

Lemma job_inr (r : GFPGANer.t) (p n : string) :
  outcome (Io.restore_image h w args r p) = inr n ->
  n = OsPath.basename p /\
  exists res, enhance w r (cv2_imread w p) (aligned args) (only_center_face args)
                true (weight args) = inr res.
Proof.
  destruct (enhance w r (cv2_imread w p) (aligned args) (only_center_face args)
              true (weight args)) as [e'|[[cs rs] ri]] eqn:He.
  - rewrite (io_job_raise h w args r p e' He). discriminate.
  - rewrite (io_job_return h w args r p cs rs ri He). intros H.
    do 5 (apply IoFacts.bind_inr_inv in H as [? [_ [H _]]]).
    injection H as <-. split; [reflexivity | now eexists].
Qed.

Lemma io_job_no_set_up (r : GFPGANer.t) (p : string) :
  Forall (fun ev => is_warn ev || is_new_restorer ev = false)
    (trace (Io.restore_image h w args r p)).
Proof.
  assert (Hmk : forall d, Forall (fun ev => is_warn ev || is_new_restorer ev = false)
                            (trace (Io.makedirs h d))).
  { intros d. unfold Io.makedirs.
    destruct (Io.os_makedirs h d); repeat constructor. }
  assert (Hw : forall img path,
             Forall (fun ev => is_warn ev || is_new_restorer ev = false)
               (trace (Io.imwrite h img path))).
  { intros img path. unfold Io.imwrite. apply IoFacts.forall_bind; [apply Hmk |].
    intros _. destruct (Io.cv2_imwrite h path img) as [e|[|]]; repeat constructor. }
  destruct (enhance w r (cv2_imread w p) (aligned args) (only_center_face args)
              true (weight args)) as [e'|[[cs rs] ri]] eqn:He.
  - rewrite (io_job_raise h w args r p e' He). repeat constructor.
  - rewrite (io_job_return h w args r p cs rs ri He).
    do 3 (apply IoFacts.forall_bind; [repeat constructor | intros _]).
    apply IoFacts.forall_bind.
    + apply IoFacts.forall_for_in. intros [idx [c f]] _. unfold Io.save_face.
      apply IoFacts.forall_bind; [apply Hw | intros _].
      apply IoFacts.forall_bind; [apply Hw | intros _].
      apply IoFacts.forall_bind;
        [destruct (Io.np_concatenate h c f); repeat constructor | intros _].
      apply Hw.
    + intros _. apply IoFacts.forall_bind; [| intros _; constructor].
      destruct ri; [apply Hw | constructor].
Qed.

End Ends.

Section Whole.

Variables (h : Io.Host) (w : World) (args : Args).

Lemma outcome_bind_inr {A B : Type} (m : M A) (k : A -> M B) (a : A) :
  outcome m = inr a -> outcome (bind m k) = outcome (k a).
Proof. intros H. now rewrite (IoFacts.trace_bind_inr m k a H). Qed.

(** The run in its three stages. *)
Lemma run_cases :
  match Io.os_makedirs h (output args) with
  | Some e => Io.run_args h w args = ([], inl e)
  | None =>
      match outcome (Io.set_up_restorer h w args) with
      | inl e =>
          Io.run_args h w args =
          (Makedirs (output args) :: trace (Io.set_up_restorer h w args), inl e)
      | inr r =>
          Io.run_args h w args =
          ((Makedirs (output args) :: trace (Io.set_up_restorer h w args) ++
            trace (Io.restore_loop h w args r (img_list w args)) ++
            match outcome (Io.restore_loop h w args r (img_list w args)) with
            | inr _ => [Debug ("Results are in the [" ++ output args ++ "] folder.")]
            | inl _ => []
            end)%list,
           match outcome (Io.restore_loop h w args r (img_list w args)) with
           | inl e => inl e
           | inr (Some n) => inr (output args ++ "/restored_imgs/" ++ n)
           | inr None => inl (UnboundLocalError "img_name")
           end)
      end
  end.
Proof.
  unfold Io.run_args, Io.makedirs. cbv zeta.
  destruct (Io.os_makedirs h (output args)) as [e|]; [reflexivity |].
  cbn [Io.call].
  destruct (Io.set_up_restorer h w args) as [t0 [e|r]]; [reflexivity |].
  cbn [outcome snd trace fst bind ret app].
  destruct (Io.restore_loop h w args r (img_list w args)) as [tl [e|[n|]]];
    unfold emit, ret, raise; cbn [fst snd app];
    rewrite ?app_nil_r; reflexivity.
Qed.

Lemma io_job_name (r : GFPGANer.t) (p n : string) :
  outcome (Io.restore_image h w args r p) = inr n -> n = OsPath.basename p.
Proof. intros H. now apply job_inr in H. Qed.

(** A run that returns has gone through every stage. *)
Lemma run_inr (path : string) :
  outcome (Io.run_args h w args) = inr path ->
  exists r,
    outcome (Io.set_up_restorer h w args) = inr r /\
    In (version args) known_versions /\
    img_list w args <> [] /\
    path = output args ++ "/restored_imgs/" ++
           OsPath.basename (last (img_list w args) "") /\
    (forall p, In p (img_list w args) ->
               outcome (Io.restore_image h w args r p) = inr (OsPath.basename p)) /\
    trace (Io.run_args h w args) =
      (Makedirs (output args) :: trace (Io.set_up_restorer h w args) ++
       flat_map (fun p => trace (Io.restore_image h w args r p)) (img_list w args) ++
       [Debug ("Results are in the [" ++ output args ++ "] folder.")])%list.
Proof.
  pose proof run_cases as Hc. pose proof (proj2 (set_up_cases h w args)) as Hk.
  destruct (Io.os_makedirs h (output args)) as [e|]; [rewrite Hc; discriminate |].
  destruct (outcome (Io.set_up_restorer h w args)) as [e|r] eqn:Hs;
    [rewrite Hc; discriminate |].
  rewrite Hc. cbn [outcome snd trace fst].
  destruct (outcome (Io.restore_loop h w args r (img_list w args)))
    as [e|v] eqn:Hl; [discriminate |].
  unfold Io.restore_loop in Hl.
  apply (loop_inr (Io.restore_image h w args r) (io_job_name r)) in Hl
    as [Hall [Ht Hv]].
  fold (Io.restore_loop h w args r (img_list w args)) in Ht. rewrite Ht.
  destruct (img_list w args) as [|q l] eqn:El; subst v; [discriminate |].
  intros [= <-]. exists r. repeat split; try assumption. discriminate.
Qed.

(** *** On a host that accepts every call *)

Hypothesis h_accepts : Io.accepting h.

Lemma accepting_imwrite (img : Image) (path : string) :
  Io.imwrite h img path =
  ([Makedirs (Io.os_path_abspath h (Io.dirname path)); Imwrite img path], inr tt).
Proof.
  destruct h_accepts as [Hm [Hw _]].
  unfold Io.imwrite, Io.makedirs. now rewrite Hm, Hw.
Qed.

Lemma accepting_save_face (b : string) (item : nat * (Image * Image)) :
  outcome (Io.save_face h args b item) = inr tt.
Proof.
  destruct h_accepts as [_ [_ [Hc _]]].
  destruct item as [idx [c f]]. unfold Io.save_face.
  rewrite !accepting_imwrite, Hc. reflexivity.
Qed.

Lemma accepting_for_in {A : Type} (body : A -> M unit) (l : list A) :
  (forall x, outcome (body x) = inr tt) ->
  outcome (for_in l tt (fun x _ => body x)) = inr tt.
Proof.
  intros Hb. induction l as [|x l IH]; [reflexivity |].
  cbn [for_in]. now rewrite (outcome_bind_inr _ _ tt (Hb x)).
Qed.

Lemma accepting_job (r : GFPGANer.t) (p : string) (res : EnhanceResult) :
  enhance w r (cv2_imread w p) (aligned args) (only_center_face args) true
    (weight args) = inr res ->
  outcome (Io.restore_image h w args r p) = inr (OsPath.basename p).
Proof.
  destruct res as [[cs rs] ri]. intros He.
  rewrite (io_job_return h w args r p cs rs ri He).
  do 3 (erewrite outcome_bind_inr by reflexivity).
  erewrite outcome_bind_inr
    by (apply (accepting_for_in (Io.save_face h args (basename_of p)));
        apply accepting_save_face).
  erewrite outcome_bind_inr; [reflexivity |].
  destruct ri as [g|]; [| reflexivity].
  unfold Io.save_restored_img. now rewrite accepting_imwrite.
Qed.

Lemma accepting_set_up :
  In (version args) known_versions ->
  exists r, outcome (Io.set_up_restorer h w args) = inr r.
Proof.
  intros Hk. destruct h_accepts as [_ [_ [_ [Hu Hg]]]].
  destruct (RunFacts.choose_model_known args Hk) as [c Hc].
  unfold Io.set_up_restorer, Io.set_up_bg_upsampler.
  destruct (bg_upsampler args =? "realesrgan");
    [destruct (torch_cuda_is_available w); cbn [negb] |];
    rewrite ?Hu, Hc; cbn [Io.call bind ret emit fst snd app];
    rewrite Hg; eexists; reflexivity.
Qed.

Lemma accepting_run :
  In (version args) known_versions ->
  img_list w args <> [] ->
  (forall r p, outcome (Io.set_up_restorer h w args) = inr r ->
               In p (img_list w args) ->
               exists res, enhance w r (cv2_imread w p) (aligned args)
                             (only_center_face args) true (weight args) = inr res) ->
  outcome (Io.run_args h w args) =
  inr (output args ++ "/restored_imgs/" ++
       OsPath.basename (last (img_list w args) "")).
Proof.
  intros Hk Hne Hres. pose proof run_cases as Hc.
  destruct h_accepts as [Hm _]. rewrite Hm in Hc.
  destruct (accepting_set_up Hk) as [r Hr]. rewrite Hr in Hc. rewrite Hc.
  cbn [outcome snd]. unfold Io.restore_loop.
  rewrite (loop_ok (Io.restore_image h w args r) (io_job_name r)).
  - destruct (img_list w args); [contradiction | reflexivity].
  - intros p Hp. destruct (Hres r p Hr Hp) as [res He].
    eexists. exact (accepting_job r p res He).
Qed.

End Whole.

Section Paths.

Variable args : Args.

Lemma face_writes_paths (b : string) (l : list (Image * Image)) (k : nat) :
  map snd (flat_map (face_writes args b) (enumerate_from k l)) =
  flat_map (face_artifacts args b) (seq k (length l)).
Proof.
  revert k. induction l as [|[c r] l IH]; intros k; [reflexivity |].
  cbn [enumerate_from flat_map length seq]. rewrite map_app, IH. reflexivity.
Qed.

(** The paths of the writes of an image are its artifacts. *)
Lemma job_writes_paths (p : string) (cs rs : list Image) (ri : option Image) :
  map snd (job_writes args p (cs, rs, ri)) =
  job_artifacts args p (Nat.min (length cs) (length rs))
    (match ri with Some _ => true | None => false end).
Proof.
  unfold job_writes, job_artifacts, enumerate, zip, basename_of.
  rewrite map_app, face_writes_paths, length_combine.
  destruct ri; reflexivity.
Qed.

Lemma full_image_in_job_writes (p : string) (cs rs : list Image) (g : Image) :
  In (g, full_image_artifact args (basename_of p)
           (snd (OsPath.splitext (OsPath.basename p))))
     (job_writes args p (cs, rs, Some g)).
Proof. unfold job_writes. apply in_or_app. right. now left. Qed.

End Paths.

End IoRunFacts.

(** ** The run on a host that accepts every call

    On a host on which no library call fails, the run of [Io] ends as the
    run of the section [Run] does and, the directories that [imwrite]
    creates apart, does the same things in the same order. *)

Module HostFacts.

Lemma agree_refl {A : Type} (m : M A) : agree m m.
Proof. now split. Qed.

Lemma agree_bind {A B : Type} (m m' : M A) (k k' : A -> M B) :
  agree m m' -> (forall a, agree (k a) (k' a)) -> agree (bind m k) (bind m' k').
Proof.
  unfold agree, outcome, trace. intros [Ho Ht] Hk.
  destruct m as [t [e|a]], m' as [t' [e'|a']]; cbn [fst snd] in Ho, Ht;
    try discriminate; injection Ho as <-.
  - now split.
  - destruct (Hk a) as [Hko Hkt]. unfold bind.
    destruct (k a) as [t1 r1], (k' a) as [t2 r2]. cbn [fst snd] in *.
    split; [exact Hko |]. unfold without_makedirs in *.
    rewrite !filter_app. congruence.
Qed.

Lemma agree_for_in {A S : Type} (body body' : A -> S -> M S) (l : list A) (s : S) :
  (forall x s', agree (body x s') (body' x s')) ->
  agree (for_in l s body) (for_in l s body').
Proof.
  intros Hb. revert s. induction l as [|x l IH]; intros s; [apply agree_refl |].
  cbn [for_in]. apply agree_bind; [apply Hb | intros s'; apply IH].
Qed.

Lemma bind_ret_l {A B : Type} (a : A) (k : A -> M B) : bind (ret a) k = k a.
Proof. unfold bind, ret. now destruct (k a). Qed.

Section Accepting.

Variables (h : Io.Host) (w : World) (args : Args).

Hypothesis h_accepts : Io.accepting h.

Lemma agree_makedirs (path : string) :
  Io.makedirs h path = emit (Makedirs path).
Proof.
  unfold Io.makedirs. rewrite (proj1 h_accepts path). reflexivity.
Qed.

Lemma agree_imwrite (img : Image) (path : string) :
  agree (Io.imwrite h img path) (imwrite img path).
Proof.
  rewrite (IoRunFacts.accepting_imwrite h h_accepts). now split.
Qed.

Lemma agree_save_face (b : string) (item : nat * (Image * Image)) :
  agree (Io.save_face h args b item) (save_face args b item).
Proof.
  destruct item as [idx [c r]]. unfold Io.save_face, save_face. cbv zeta.
  apply agree_bind; [apply agree_imwrite | intros _].
  apply agree_bind; [apply agree_imwrite | intros _].
  rewrite (proj1 (proj2 (proj2 h_accepts)) c r). cbn [Io.call].
  rewrite bind_ret_l. apply agree_imwrite.
Qed.

Lemma agree_save_restored_img (b x : string) (ri : option Image) :
  agree (Io.save_restored_img h args b x ri) (save_restored_img args b x ri).
Proof.
  destruct ri as [g|]; [apply agree_imwrite | apply agree_refl].
Qed.

Lemma agree_job (r : GFPGANer.t) (p : string) :
  agree (Io.restore_image h w args r p) (restore_image w args r p).
Proof.
  unfold Io.restore_image, restore_image. cbv zeta.
  apply agree_bind; [apply agree_refl | intros _].
  destruct (OsPath.splitext (OsPath.basename p)) as [b x].
  apply agree_bind; [apply agree_refl | intros _].
  apply agree_bind; [apply agree_refl | intros _].
  destruct (enhance w r _ _ _ _ _) as [e|[[cs rs] ri]]; [apply agree_refl |].
  apply agree_bind.
  - apply agree_for_in. intros item _. apply agree_save_face.
  - intros _. apply agree_bind; [apply agree_save_restored_img | intros _].
    apply agree_refl.
Qed.

Lemma agree_set_up_bg :
  Io.set_up_bg_upsampler h w args = set_up_bg_upsampler w args.
Proof.
  unfold Io.set_up_bg_upsampler, set_up_bg_upsampler.
  destruct (bg_upsampler args =? "realesrgan"); [| reflexivity].
  destruct (negb (torch_cuda_is_available w)); [reflexivity |]. cbv zeta.
  rewrite (proj1 (proj2 (proj2 (proj2 h_accepts)))). reflexivity.
Qed.

Lemma agree_set_up :
  Io.set_up_restorer h w args = set_up_restorer w args.
Proof.
  unfold Io.set_up_restorer, set_up_restorer. rewrite agree_set_up_bg.
  destruct (set_up_bg_upsampler w args) as [t0 [e|bg]]; [reflexivity |].
  cbn [bind]. destruct (choose_model args) as [t1 [e|c]]; [reflexivity |].
  cbn [bind]. rewrite (proj2 (proj2 (proj2 (proj2 h_accepts)))).
  reflexivity.
Qed.

(** The run on an accepting host and the run of the first model. *)
Lemma accepting_run_agrees : agree (Io.run_args h w args) (run_args w args).
Proof.
  unfold Io.run_args, run_args. cbv zeta.
  rewrite agree_makedirs, agree_set_up.
  apply agree_bind; [apply agree_refl | intros _].
  apply agree_bind; [apply agree_refl | intros r].
  apply agree_bind; [| intros n; apply agree_refl].
  unfold Io.restore_loop, restore_loop. apply agree_for_in. intros p _.
  apply agree_bind; [apply agree_job | intros n; apply agree_refl].
Qed.

End Accepting.

End HostFacts.

(** ** Properties of the driver *)

(** C1. A run whose input enumerates no image writes no artifact, but it
    does not return: the final [return] reads the variable [img_name], which
    only the loop body binds, and the run ends in [UnboundLocalError]. *)
Theorem empty_batch_raises_unbound_img_name (w : World) (_input _output : string) :
  img_list w (main_args _input _output) = [] ->
  outcome (run_main w _input _output) = inl (UnboundLocalError "img_name") /\
  written (trace (run_main w _input _output)) = [].
Proof.
  intros Hempty. unfold run_main.
  destruct (RunFacts.set_up_restorer_known w (main_args _input _output))
    as [c [bg [_ [_ Hs]]]]; [simpl; tauto |].
  rewrite (RunFacts.run_args_after_setup _ _ _ _ Hs), Hempty.
  cbn [restore_loop for_in ret trace outcome fst snd].
  split; [reflexivity |].
  destruct (_ && _); reflexivity.
Qed.

Lemma empty_batch_raises_witness :
  img_list empty_dir_world (main_args "empty_dir" "out") = [] /\
  outcome (run_main empty_dir_world "empty_dir" "out") =
    inl (UnboundLocalError "img_name") /\
  written (trace (run_main empty_dir_world "empty_dir" "out")) = [].
Proof.
  split; [reflexivity |].
  apply (empty_batch_raises_unbound_img_name empty_dir_world "empty_dir" "out").
  reflexivity.
Defined.

(** C2 (as the program has it). For every image for which the engine
    returns, the writes are, face after face: the cropped face to
    [cropped_faces/<basename>_<i:02d>.png], the restored face to
    [restored_faces/<basename>_<i:02d>[_<suffix>].png], the two side by side
    to [cmp/<basename>_<i:02d>.png], and at the end the full restored image,
    if there is one, to [restored_imgs/<basename>[_<suffix>].<ext>], [ext]
    being the source extension under [auto] and the configured one
    otherwise. A write that fails ends the run, so what is written is this
    list up to the failing call, and all of it when the iteration ends, as
    it does on a host that accepts every call. Two images with distinct
    basenames share no path. *)
Theorem artifact_layout (h : Io.Host) (w : World) (args : Args)
    (restorer : GFPGANer.t) :
  (forall p res,
     enhance w restorer (cv2_imread w p) (aligned args) (only_center_face args)
       true (weight args) = inr res ->
     writes_within (Io.restore_image h w args restorer p) (job_writes args p res) /\
     (Io.accepting h ->
      outcome (Io.restore_image h w args restorer p) = inr (OsPath.basename p))) /\
  (forall p1 p2 res1 res2 x,
     basename_of p1 <> basename_of p2 ->
     In x (map snd (job_writes args p1 res1)) ->
     ~ In x (map snd (job_writes args p2 res2))).
Proof.
  split.
  { intros p res He. split; [now apply IoRunFacts.within_job |].
    intros Ha. exact (IoRunFacts.accepting_job h w args Ha restorer p res He). }
  intros p1 p2 [[cs1 rs1] ri1] [[cs2 rs2] ri2] x Hb H1 H2. apply Hb. clear Hb.
  rewrite IoRunFacts.job_writes_paths in H1, H2. unfold basename_of.
  apply LayoutFacts.artifact_form in H1 as [c1 [m1 [E1 [S1 F1]]]].
  apply LayoutFacts.artifact_form in H2 as [c2 [m2 [E2 [S2 F2]]]].
  rewrite E1 in E2. clear E1 x.
  assert (Ht : c1 ++ "/" ++ m1 = c2 ++ "/" ++ m2).
  { destruct F1 as [[-> _]|[[-> _]|[[-> _]|[-> _]]]];
      destruct F2 as [[-> _]|[[-> _]|[[-> _]|[-> _]]]];
      (apply (LayoutFacts.join3_tail_eq args); try reflexivity; try discriminate;
       assumption). }
  clear E2 S1 S2.
  destruct F1 as [[-> [i ->]]|[[-> [i ->]]|[[-> [i ->]]|[-> ->]]]];
    destruct F2 as [[-> [j ->]]|[[-> [j ->]]|[[-> [j ->]]|[-> ->]]]];
    cbn [String.append] in Ht; try discriminate;
    repeat (injection Ht as Ht); change (String "_" ?t) with ("_" ++ t) in Ht.
  - exact (LayoutFacts.face_name_cut _ _ _ _ _ Ht).
  - exact (LayoutFacts.face_name_cut _ _ _ _ _ Ht).
  - exact (LayoutFacts.face_name_cut _ _ _ _ _ Ht).
  - exact (LayoutFacts.full_name_cut args _ _ _ _ Ht).
Qed.

Lemma artifact_layout_witness :
  let args := main_args "portrait.jpg" "output" in
  let r := GFPGANer.mk "GFPGANv1.3.pth" 2 "clean" 2 None in
  (writes (trace (Io.restore_image accepting_host portrait_world args r "portrait.jpg")) =
     [(Pixels 1, "output/cropped_faces/portrait_00.png");
      (Pixels 2, "output/restored_faces/portrait_00.png");
      (Concatenate (Pixels 1) (Pixels 2), "output/cmp/portrait_00.png");
      (Pixels 3, "output/restored_imgs/portrait.jpg")] /\
   outcome (Io.restore_image accepting_host portrait_world args r "portrait.jpg") =
     inr "portrait.jpg") /\
  ~ In "output/cmp/portrait_00.png"
       (map snd (job_writes args "in/group.jpg"
                   ([Pixels 1; Pixels 4], [Pixels 2; Pixels 5], Some (Pixels 3)))).
Proof.
  intros args r.
  pose proof (artifact_layout accepting_host portrait_world args r) as [Hw Hd].
  split.
  - destruct (Hw "portrait.jpg" ([Pixels 1], [Pixels 2], Some (Pixels 3)) eq_refl)
      as [Hin Hout].
    assert (Ha : Io.accepting accepting_host) by (repeat split).
    specialize (Hout Ha). unfold writes_within in Hin. rewrite Hout in Hin.
    split; [exact Hin | exact Hout].
  - apply (Hd "portrait.jpg" "in/group.jpg"
             ([Pixels 1], [Pixels 2], Some (Pixels 3))).
    + vm_compute. discriminate.
    + vm_compute. tauto.
Defined.

(** C2 (as stated) fails: for [portrait.jpg] under the [auto] policy the
    name the claim gives to the cropped face of face 0 ends in [.jpg], and
    no such file is written even on a host that accepts every write; the
    face-level artifacts are [.png] files. With a suffix configured, the
    cropped face and the comparison image do not carry it. *)
Lemma face_artifacts_ignore_extension_policy :
  (Spec.face_artifact_name "portrait" 0 None "jpg" = "portrait_00.jpg" /\
   ~ In (OsPath.join3 "output" "cropped_faces"
           (Spec.face_artifact_name "portrait" 0 None "jpg"))
        (map snd (writes (trace (Io.run_main accepting_host portrait_world
                                   "portrait.jpg" "output")))) /\
   In (Pixels 1, "output/cropped_faces/portrait_00.png")
      (writes (trace (Io.run_main accepting_host portrait_world
                        "portrait.jpg" "output")))) /\
  (Spec.face_artifact_name "portrait" 0 (Some "v2") "png" = "portrait_00_v2.png" /\
   writes (trace (Io.run_args accepting_host portrait_world suffixed_args)) =
     [(Pixels 1, "output/cropped_faces/portrait_00.png");
      (Pixels 2, "output/restored_faces/portrait_00_v2.png");
      (Concatenate (Pixels 1) (Pixels 2), "output/cmp/portrait_00.png");
      (Pixels 3, "output/restored_imgs/portrait_v2.png")]).
Proof.
  split; [| split; reflexivity].
  split; [reflexivity |]. split.
  - vm_compute. intros [H|[H|[H|[H|[]]]]]; discriminate.
  - vm_compute. tauto.
Qed.

(** C3. For each of the five known versions the model path is the file in
    the pretrained-models cache if it exists, else the file in the weights
    directory if it exists, else the download URL of the version; it is
    never empty and the resolution does not raise. *)
Theorem weight_resolution_order (w : World) (args : Args) :
  In (version args) known_versions ->
  exists c,
    choose_model args = ([], inr c) /\
    determine_model_path w c =
      (if os_path_isfile w (cache_path c) then cache_path c
       else if os_path_isfile w (weights_path c) then weights_path c
       else url c) /\
    determine_model_path w c <> "".
Proof.
  intros Hk.
  assert (H : exists c, choose_model args = ([], inr c) /\
                        PyStr.startswith (model_name c ++ ".pth") OsPath.sep = false /\
                        url c <> "").
  { unfold choose_model, known_versions in *. simpl in Hk.
    destruct Hk as [H|[H|[H|[H|[H|[]]]]]]; rewrite <- H; simpl;
      eexists; (split; [reflexivity | split; [reflexivity | discriminate]]). }
  destruct H as [c [Hc [Hn Hu]]]. exists c.
  split; [exact Hc |].
  rewrite (RunFacts.determine_model_path_order w c Hn).
  split; [reflexivity |].
  destruct (os_path_isfile w (cache_path c)); [discriminate |].
  destruct (os_path_isfile w (weights_path c)); [discriminate | exact Hu].
Qed.

Lemma weight_resolution_order_witness :
  exists c,
    choose_model (main_args "portrait.jpg" "output") = ([], inr c) /\
    determine_model_path portrait_world c =
      (if os_path_isfile portrait_world (cache_path c) then cache_path c
       else if os_path_isfile portrait_world (weights_path c) then weights_path c
       else url c) /\
    determine_model_path portrait_world c <> "".
Proof.
  apply (weight_resolution_order portrait_world (main_args "portrait.jpg" "output")).
  simpl. tauto.
Defined.

(** C4. The background upsampler is disabled when another strategy than
    [realesrgan] is selected, and disabled with a warning when [realesrgan]
    is selected without CUDA; with CUDA it is built with scale 2, the
    configured tile size, tile padding 10 and pre-padding 0. *)
Theorem bg_upsampler_policy (w : World) (args : Args) :
  (bg_upsampler args <> "realesrgan" ->
   set_up_bg_upsampler w args = ([], inr None)) /\
  (bg_upsampler args = "realesrgan" -> torch_cuda_is_available w = false ->
   set_up_bg_upsampler w args = ([Warn cpu_warning], inr None)) /\
  (bg_upsampler args = "realesrgan" -> torch_cuda_is_available w = true ->
   exists u,
     set_up_bg_upsampler w args = ([], inr (Some u)) /\
     RealESRGANer.scale u = 2%Z /\
     RealESRGANer.tile u = bg_tile args /\
     RealESRGANer.tile_pad u = 10%Z /\
     RealESRGANer.pre_pad u = 0%Z).
Proof.
  unfold set_up_bg_upsampler. repeat split.
  - intros Hne. apply String.eqb_neq in Hne. now rewrite Hne.
  - intros -> ->. reflexivity.
  - intros -> ->. simpl. eexists. repeat split.
Qed.

Lemma bg_upsampler_policy_witness :
  (set_up_bg_upsampler portrait_world (main_args "portrait.jpg" "output") =
     ([Warn cpu_warning], inr None)) /\
  (exists u,
     set_up_bg_upsampler cuda_world (main_args "portrait.jpg" "output") =
       ([], inr (Some u)) /\
     RealESRGANer.scale u = 2%Z /\
     RealESRGANer.tile u = bg_tile (main_args "portrait.jpg" "output") /\
     RealESRGANer.tile_pad u = 10%Z /\
     RealESRGANer.pre_pad u = 0%Z).
Proof.
  split.
  - apply (proj1 (proj2 (bg_upsampler_policy portrait_world
                           (main_args "portrait.jpg" "output"))));
      reflexivity.
  - apply (proj2 (proj2 (bg_upsampler_policy cuda_world
                           (main_args "portrait.jpg" "output"))));
      reflexivity.
Defined.



(** C6 (as the program has it). One trailing ['/'] is removed from the
    input, if there is one. If the result names a regular file it is the
    only job; otherwise the jobs are the matches of the pattern
    [<input>/*], in ascending order of their path strings, which for paths
    under one directory is the order of their file names. *)
Theorem input_enumeration (w : World) (args : Args) :
  (PyStr.endswith (input args) "/" = true ->
   input args = normalized_input args ++ "/") /\
  (PyStr.endswith (input args) "/" = false ->
   normalized_input args = input args) /\
  (os_path_isfile w (normalized_input args) = true ->
   img_list w args = [normalized_input args]) /\
  (os_path_isfile w (normalized_input args) = false ->
   Permutation (img_list w args)
     (glob_glob w (OsPath.join (normalized_input args) "*")) /\
   StronglySorted PyStr.le (img_list w args) /\
   forall d names,
     glob_glob w (OsPath.join (normalized_input args) "*") =
       map (String.append d) names ->
     img_list w args = map (String.append d) (PyStr.sorted names)).
Proof.
  unfold img_list, normalized_input. repeat split.
  - intros H. rewrite H. now apply StrFacts.drop_last_endswith.
  - intros H. now rewrite H.
  - intros H. now rewrite H.
  - rewrite H. apply SortFacts.sorted_perm.
  - rewrite H. apply SortFacts.sorted_strongly.
  - intros d names Hg. rewrite H, Hg. apply SortFacts.sorted_map.
Qed.

Lemma input_enumeration_witness :
  "in/" = normalized_input (main_args "in/" "out") ++ "/" /\
  img_list mixed_dir_world (main_args "in/b.jpg" "out") = ["in/b.jpg"] /\
  img_list mixed_dir_world (main_args "in/" "out") =
    map (String.append "in/") (PyStr.sorted ["b.jpg"; "a.jpg"]).
Proof.
  split; [| split].
  - apply (proj1 (input_enumeration mixed_dir_world (main_args "in/" "out"))).
    reflexivity.
  - apply (proj1 (proj2 (proj2
             (input_enumeration mixed_dir_world (main_args "in/b.jpg" "out"))))).
    reflexivity.
  - apply (proj2 (proj2 (proj2
             (input_enumeration mixed_dir_world (main_args "in/" "out")))));
      reflexivity.
Defined.

(** C6 (as stated) fails: of two trailing separators the program removes
    one, so the path it goes on with still ends in a separator. *)
Lemma one_trailing_separator_is_stripped :
  normalized_input (main_args "in//" "out") = "in/" /\
  PyStr.endswith (normalized_input (main_args "in//" "out")) "/" = true /\
  Spec.strip_trailing_separators "in//" = "in" /\
  normalized_input (main_args "in//" "out") <> Spec.strip_trailing_separators "in//".
Proof. repeat split; try reflexivity. discriminate. Qed.







(** C9. With the single file [portrait.jpg] as input and [output] as
    output directory, an engine that finds one face and returns a full
    image makes the run write exactly the four artifacts of the scenario, in
    this order, and return the path of the restored image. *)
Theorem portrait_scenario (w : World) (r : GFPGANer.t) (c f g : Image) :
  os_path_isfile w "portrait.jpg" = true ->
  outcome (set_up_restorer w (main_args "portrait.jpg" "output")) = inr r ->
  enhance w r (cv2_imread w "portrait.jpg") false false true (1 # 2)%Q =
    inr ([c], [f], Some g) ->
  written (trace (run_main w "portrait.jpg" "output")) =
    ["output/cropped_faces/portrait_00.png";
     "output/restored_faces/portrait_00.png";
     "output/cmp/portrait_00.png";
     "output/restored_imgs/portrait.jpg"] /\
  outcome (run_main w "portrait.jpg" "output") =
    inr "output/restored_imgs/portrait.jpg".
Proof.
  intros Hfile Hr He. unfold run_main.
  set (args := main_args "portrait.jpg" "output") in *.
  destruct (set_up_restorer w args) as [t0 r0] eqn:Hs. simpl in Hr. subst r0.
  pose proof (RunFacts.set_up_restorer_written w args) as Ht0.
  rewrite Hs in Ht0. cbn [trace fst] in Ht0.
  rewrite (RunFacts.run_args_after_setup _ _ _ _ Hs).
  assert (Himgs : img_list w args = ["portrait.jpg"]).
  { unfold img_list, normalized_input. cbn. now rewrite Hfile. }
  rewrite Himgs. unfold restore_loop.
  rewrite (RunFacts.loop_step_ok w args r "portrait.jpg" [] None _ _
             (RunFacts.job_return w args r "portrait.jpg" [c] [f] (Some g) He)).
  cbn [for_in ret trace outcome fst snd].
  split; [| reflexivity].
  change (Makedirs (output args) :: ?l)%list with ([Makedirs (output args)] ++ l)%list.
  rewrite !RunFacts.written_app, Ht0. reflexivity.
Qed.

Lemma portrait_scenario_witness :
  written (trace (run_main portrait_world "portrait.jpg" "output")) =
    ["output/cropped_faces/portrait_00.png";
     "output/restored_faces/portrait_00.png";
     "output/cmp/portrait_00.png";
     "output/restored_imgs/portrait.jpg"] /\
  outcome (run_main portrait_world "portrait.jpg" "output") =
    inr "output/restored_imgs/portrait.jpg".
Proof.
  eapply (portrait_scenario portrait_world _ (Pixels 1) (Pixels 2) (Pixels 3));
    reflexivity.
Defined.

(** C10. Whatever the caller passes, only the input and output paths of
    the configuration vary: the version is 1.3 (clean architecture, channel
    multiplier 2), upscale 2, background upsampler [realesrgan] with tile
    400, no suffix, extension policy [auto], weight 0.5; every restorer the
    run builds and every [enhance] call it makes carry these values, with
    [has_aligned] and [only_center_face] false and [paste_back] true. *)
Theorem run_main_configuration_is_fixed (w : World) (_input _output : string) :
  run_main w _input _output = run_args w (main_args _input _output) /\
  input (main_args _input _output) = _input /\
  output (main_args _input _output) = _output /\
  version (main_args _input _output) = "1.3" /\
  upscale (main_args _input _output) = 2%Z /\
  bg_upsampler (main_args _input _output) = "realesrgan" /\
  bg_tile (main_args _input _output) = 400%Z /\
  suffix (main_args _input _output) = None /\
  ext (main_args _input _output) = "auto" /\
  weight (main_args _input _output) = (1 # 2)%Q /\
  Forall (fun ev =>
            match ev with
            | NewRestorer r =>
                GFPGANer.arch r = "clean" /\
                GFPGANer.channel_multiplier r = 2%Z /\
                GFPGANer.upscale r = 2%Z /\
                (GFPGANer.bg_upsampler r = None \/
                 exists u, GFPGANer.bg_upsampler r = Some u /\
                           RealESRGANer.tile u = 400%Z)
            | Enhance _ has_aligned only_center_face paste_back wt =>
                has_aligned = false /\ only_center_face = false /\
                paste_back = true /\ wt = (1 # 2)%Q
            | _ => True
            end) (trace (run_main w _input _output)).
Proof.
  repeat (split; [reflexivity |]).
  unfold run_main. set (args := main_args _input _output).
  destruct (RunFacts.set_up_restorer_known w args) as [c [bg [Hc [Hbg Hs]]]];
    [simpl; tauto |].
  rewrite (RunFacts.run_args_after_setup _ _ _ _ Hs). cbn [trace fst].
  constructor; [exact I |].
  apply Forall_app. split.
  - apply Forall_app. split; [destruct (_ && _); repeat constructor |].
    constructor; [| constructor].
    unfold args, ret in Hc. cbn in Hc. injection Hc as <-. cbn.
    repeat (split; [reflexivity |]).
    unfold args, set_up_bg_upsampler in Hbg. cbn in Hbg.
    destruct (torch_cuda_is_available w); cbn in Hbg; injection Hbg as <-.
    + right. eexists. split; reflexivity.
    + now left.
  - apply Forall_app. split.
    + apply RunFacts.loop_trace_Forall; intros; cbn; auto.
    + destruct (outcome (restore_loop _ _ _ _)); repeat constructor.
Qed.

(** ** Facts about whole runs *)

Module BatchFacts.

Section Batch.

Variables (w : World) (args : Args).

Abbreviation job r := (restore_image w args r).

(** Either every image of a list is processed to the end, or there is a
    first one on which the engine raises. *)
Lemma first_failure (r : GFPGANer.t) (l : list string) :
  (forall p, In p l -> exists n, outcome (job r p) = inr n) \/
  (exists before p after e,
     l = (before ++ p :: after)%list /\
     (forall q, In q before -> exists n, outcome (job r q) = inr n) /\
     outcome (job r p) = inl e).
Proof.
  induction l as [|p l IH]; [left; intros p [] |].
  destruct (outcome (job r p)) as [e|n] eqn:Ep.
  - right. exists [], p, l, e. repeat split; [intros q [] | exact Ep].
  - destruct IH as [Hall | [before [q [after [e [-> [Hb Hq]]]]]]].
    + left. intros q [<-|Hq]; [now exists n | now apply Hall].
    + right. exists (p :: before), q, after, e. repeat split; [| exact Hq].
      intros q' [<-|Hq']; [now exists n | now apply Hb].
Qed.

Lemma job_outcome_raise (r : GFPGANer.t) (p : string) (e : PyExn) :
  outcome (job r p) = inl e ->
  enhance w r (cv2_imread w p) (aligned args) (only_center_face args) true
    (weight args) = inl e.
Proof.
  intros H.
  destruct (enhance w r (cv2_imread w p) (aligned args) (only_center_face args)
              true (weight args)) as [e'|[[cs rs] ri]] eqn:He.
  - rewrite (RunFacts.job_raise _ _ _ _ _ He) in H. cbn [outcome snd] in H.
    now injection H as ->.
  - rewrite (RunFacts.job_return _ _ _ _ _ _ _ He) in H. discriminate.
Qed.

Lemma job_outcome_return (r : GFPGANer.t) (p n : string) :
  outcome (job r p) = inr n ->
  exists res, enhance w r (cv2_imread w p) (aligned args) (only_center_face args)
                true (weight args) = inr res.
Proof.
  intros H.
  destruct (enhance w r (cv2_imread w p) (aligned args) (only_center_face args)
              true (weight args)) as [e'|res] eqn:He; [| now exists res].
  rewrite (RunFacts.job_raise _ _ _ _ _ He) in H. discriminate.
Qed.

Lemma last_names (l : list string) :
  last (map (fun p => Some (OsPath.basename p)) l) None =
  match l with
  | [] => None
  | _ => Some (OsPath.basename (last l ""))
  end.
Proof.
  destruct l as [|p l]; [reflexivity |].
  revert p. induction l as [|q l IH]; intros p; [reflexivity |].
  change (last (map (fun p => Some (OsPath.basename p)) (p :: q :: l)) None)
    with (last (map (fun p => Some (OsPath.basename p)) (q :: l)) None).
  rewrite IH. reflexivity.
Qed.

(** The three ways a run goes: the version is rejected; every image is
    processed; the engine raises on some image. *)
Lemma run_args_cases :
  (~ In (version args) known_versions /\
   run_args w args =
     (Makedirs (output args) :: trace (set_up_restorer w args),
      inl (ValueError "Wrong model version!"))) \/
  (exists r,
     In (version args) known_versions /\
     outcome (set_up_restorer w args) = inr r /\
     ((forall p, In p (img_list w args) -> exists n, outcome (job r p) = inr n) /\
      run_args w args =
        ((Makedirs (output args) :: trace (set_up_restorer w args) ++
          flat_map (fun p => trace (job r p)) (img_list w args) ++
          [Debug ("Results are in the [" ++ output args ++ "] folder.")])%list,
         match img_list w args with
         | [] => inl (UnboundLocalError "img_name")
         | _ => inr (output args ++ "/restored_imgs/" ++
                     OsPath.basename (last (img_list w args) ""))
         end)
      \/
      exists before p after e,
        img_list w args = (before ++ p :: after)%list /\
        (forall q, In q before -> exists n, outcome (job r q) = inr n) /\
        outcome (job r p) = inl e /\
        run_args w args =
          ((Makedirs (output args) :: trace (set_up_restorer w args) ++
            flat_map (fun q => trace (job r q)) before ++ trace (job r p))%list,
           inl e))).
Proof.
  destruct (in_dec string_dec (version args) known_versions) as [Hk|Hu].
  - right.
    destruct (RunFacts.set_up_restorer_known w args Hk) as [c [bg [_ [_ Hs]]]].
    eexists. split; [exact Hk |]. split; [now rewrite Hs |].
    rewrite (RunFacts.run_args_after_setup _ _ _ _ Hs). rewrite Hs.
    cbn [trace fst]. unfold restore_loop.
    match goal with
    | |- context [for_in _ None (fun img_path _ => _ <- restore_image w args ?r img_path ;; _)] =>
        set (r0 := r)
    end.
    destruct (first_failure r0 (img_list w args))
      as [Hall | [before [p [after [e [Hl [Hb Hp]]]]]]].
    + left. split; [exact Hall |].
      rewrite (RunFacts.restore_loop_ok w args r0 _ None Hall).
      cbn [trace outcome fst snd]. rewrite last_names.
      destruct (img_list w args); reflexivity.
    + right. exists before, p, after, e.
      split; [exact Hl |]. split; [exact Hb |]. split; [exact Hp |].
      rewrite Hl.
      rewrite (RunFacts.restore_loop_raise w args r0 before after p e None Hb Hp).
      cbn [trace outcome fst snd]. now rewrite app_nil_r.
  - left. split; [exact Hu |].
    rewrite (RunFacts.run_args_setup_raises _ _ _ _
               (RunFacts.set_up_restorer_unknown w args Hu)).
    now rewrite (RunFacts.set_up_restorer_unknown w args Hu).
Qed.

Lemma reads_app (a b : list Event) : reads (a ++ b) = (reads a ++ reads b)%list.
Proof. apply flat_map_app. Qed.

Lemma reads_flat_map {A : Type} (f : A -> list Event) (l : list A) :
  reads (flat_map f l) = flat_map (fun x => reads (f x)) l.
Proof.
  induction l as [|x l IH]; [reflexivity |].
  cbn [flat_map]. now rewrite reads_app, IH.
Qed.

Lemma written_flat_map {A : Type} (f : A -> list Event) (l : list A) :
  written (flat_map f l) = flat_map (fun x => written (f x)) l.
Proof.
  induction l as [|x l IH]; [reflexivity |].
  cbn [flat_map]. now rewrite RunFacts.written_app, IH.
Qed.

Lemma filter_none {A : Type} (f : A -> bool) (l : list A) :
  Forall (fun x => f x = false) l -> filter f l = [].
Proof.
  induction 1 as [|x l Hx _ IH]; [reflexivity |].
  cbn [filter]. now rewrite Hx.
Qed.

(** The set-up emits the warning, if any, and then the restorer. *)
Lemma set_up_restorer_trace :
  trace (set_up_restorer w args) =
  ((if (bg_upsampler args =? "realesrgan") && negb (torch_cuda_is_available w)
    then [Warn cpu_warning] else []) ++
   match outcome (set_up_restorer w args) with
   | inr r => [NewRestorer r]
   | inl _ => []
   end)%list.
Proof.
  destruct (in_dec string_dec (version args) known_versions) as [Hk|Hu].
  - destruct (RunFacts.set_up_restorer_known w args Hk) as [c [bg [_ [_ ->]]]].
    reflexivity.
  - rewrite (RunFacts.set_up_restorer_unknown w args Hu).
    cbn [trace outcome fst snd]. now rewrite app_nil_r.
Qed.

Lemma set_up_restorer_reads : reads (trace (set_up_restorer w args)) = [].
Proof.
  rewrite set_up_restorer_trace, reads_app.
  destruct (_ && _); destruct (outcome (set_up_restorer w args)); reflexivity.
Qed.

Lemma job_reads (r : GFPGANer.t) (p : string) : reads (trace (job r p)) = [p].
Proof.
  destruct (enhance w r (cv2_imread w p) (aligned args) (only_center_face args)
              true (weight args)) as [e|[[cs rs] ri]] eqn:He.
  - now rewrite (RunFacts.job_raise _ _ _ _ _ He).
  - rewrite (RunFacts.job_return _ _ _ _ _ _ _ He). cbn [trace fst].
    rewrite !reads_app, reads_flat_map.
    assert (Hf : forall l : list (nat * (Image * Image)),
               flat_map (fun item => reads (trace (save_face args
                           (fst (OsPath.splitext (OsPath.basename p))) item))) l = []).
    { induction l as [|[i [c f]] l IH]; [reflexivity | exact IH]. }
    rewrite Hf. destruct ri; reflexivity.
Qed.

Lemma job_enhance_calls (r : GFPGANer.t) (p : string) :
  length (filter is_enhance (trace (job r p))) = 1.
Proof.
  destruct (enhance w r (cv2_imread w p) (aligned args) (only_center_face args)
              true (weight args)) as [e|[[cs rs] ri]] eqn:He.
  - now rewrite (RunFacts.job_raise _ _ _ _ _ He).
  - rewrite (RunFacts.job_return _ _ _ _ _ _ _ He). cbn [trace fst].
    rewrite !filter_app.
    rewrite (filter_none is_enhance (flat_map _ _)).
    + destruct ri; reflexivity.
    + apply Forall_flat_map, Forall_forall. intros [i [c f]] _.
      repeat constructor.
Qed.

Lemma jobs_enhance_calls (r : GFPGANer.t) (l : list string) :
  length (filter is_enhance (flat_map (fun p => trace (job r p)) l)) = length l.
Proof.
  induction l as [|p l IH]; [reflexivity |].
  cbn [flat_map]. rewrite filter_app, length_app, job_enhance_calls, IH.
  reflexivity.
Qed.

Lemma jobs_reads (r : GFPGANer.t) (l : list string) :
  reads (flat_map (fun p => trace (job r p)) l) = l.
Proof.
  rewrite reads_flat_map.
  induction l as [|p l IH]; [reflexivity |].
  cbn [flat_map]. now rewrite job_reads, IH.
Qed.

(** No iteration of the loop creates a directory, warns or builds a
    restorer. *)
Lemma job_no_set_up (r : GFPGANer.t) (p : string) :
  Forall (fun ev => is_makedirs ev || is_warn ev || is_new_restorer ev = false)
    (trace (job r p)).
Proof. apply RunFacts.job_trace_Forall; reflexivity. Qed.

End Batch.

End BatchFacts.

(** ** Facts about the order of the jobs *)

Module OrderFacts.

Lemma strongly_sorted_unique (l1 l2 : list string) :
  StronglySorted PyStr.le l1 -> StronglySorted PyStr.le l2 ->
  Permutation l1 l2 -> l1 = l2.
Proof.
  revert l2. induction l1 as [|a l1 IH]; intros l2 S1 S2 Hp.
  - now apply Permutation_nil in Hp.
  - destruct l2 as [|b l2];
      [apply Permutation_sym, Permutation_nil in Hp; discriminate |].
    apply StronglySorted_inv in S1 as [S1 Ha].
    apply StronglySorted_inv in S2 as [S2 Hb].
    assert (Hab : a = b).
    { assert (Ia : In a (b :: l2))
        by (apply (Permutation_in _ Hp); now left).
      assert (Ib : In b (a :: l1))
        by (apply (Permutation_in _ (Permutation_sym Hp)); now left).
      destruct Ia as [->|Ia]; [reflexivity |].
      destruct Ib as [->|Ib]; [reflexivity |].
      rewrite Forall_forall in Ha, Hb.
      apply String.leb_antisym; [apply (Ha _ Ib) | apply (Hb _ Ia)]. }
    subst b. f_equal. apply IH; try assumption.
    now apply Permutation_cons_inv in Hp.
Qed.

(** [sorted] gives one list for all orders of the same entries. *)
Lemma sorted_of_permutation (l1 l2 : list string) :
  Permutation l1 l2 -> PyStr.sorted l1 = PyStr.sorted l2.
Proof.
  intros Hp. apply strongly_sorted_unique; try apply SortFacts.sorted_strongly.
  eapply perm_trans; [apply SortFacts.sorted_perm |].
  eapply perm_trans; [exact Hp |].
  apply Permutation_sym, SortFacts.sorted_perm.
Qed.

End OrderFacts.

(** ** Facts about the place of the artifacts *)

Module TreeFacts.

Lemma digits_no_sep (d : Decimal.uint) :
  PyStr.contains OsPath.sep (NilEmpty.string_of_uint d) = false.
Proof. induction d; simpl; auto. Qed.

Lemma format_02d_no_sep (n : nat) :
  PyStr.contains OsPath.sep (PyStr.format_02d n) = false.
Proof.
  assert (H : PyStr.contains OsPath.sep (PyStr.of_nat n) = false).
  { unfold PyStr.of_nat, NilZero.string_of_uint.
    destruct (Nat.to_uint n) eqn:E; try reflexivity;
      rewrite <- E; apply digits_no_sep. }
  unfold PyStr.format_02d.
  destruct (String.length (PyStr.of_nat n) <? 2)%nat; simpl; exact H.
Qed.

Lemma splitext_ext_no_sep (p : string) :
  PyStr.contains OsPath.sep p = false ->
  PyStr.contains OsPath.sep (PyStr.drop 1 (snd (OsPath.splitext p))) = false.
Proof.
  intros H. destruct (StrFacts.splitext_spec p) as [Hp _].
  rewrite <- Hp, StrFacts.contains_app in H.
  apply orb_false_elim in H as [_ H].
  now apply StrFacts.contains_drop.
Qed.

Section Tree.

Variables (w : World) (args : Args).

(** What an iteration writes is among the artifacts of its image. *)
Lemma job_written_in (r : GFPGANer.t) (p x : string) :
  In x (written (trace (restore_image w args r p))) ->
  exists n f, In x (job_artifacts args p n f).
Proof.
  destruct (enhance w r (cv2_imread w p) (aligned args) (only_center_face args)
              true (weight args)) as [e|[[cs rs] ri]] eqn:He.
  - rewrite (RunFacts.job_raise _ _ _ _ _ He). intros [].
  - rewrite (LayoutFacts.job_written _ _ _ _ _ _ _ He). intros H.
    do 2 eexists. exact H.
Qed.

(** What a run writes is written by an iteration on one of its images. *)
Lemma run_written_in (x : string) :
  In x (written (trace (run_args w args))) ->
  exists r p, In p (img_list w args) /\
              In x (written (trace (restore_image w args r p))).
Proof.
  pose proof (RunFacts.set_up_restorer_written w args) as Hs.
  destruct (BatchFacts.run_args_cases w args)
    as [[Hu ->] | [r [Hk [Hr [[Hall ->] | [before [p [after [e [Hl [Hb [Hp ->]]]]]]]]]]]];
    cbn [trace fst];
    change (Makedirs (output args) :: ?l)%list with ([Makedirs (output args)] ++ l)%list;
    rewrite ?RunFacts.written_app, ?Hs, ?BatchFacts.written_flat_map;
    cbn [written flat_map app]; rewrite ?app_nil_r.
  - intros [].
  - intros H. apply in_flat_map in H as [p [Hp Hx]]. now exists r, p.
  - intros H. apply in_app_or in H as [H|H].
    + apply in_flat_map in H as [q [Hq Hx]]. exists r, q. split; [| exact Hx].
      rewrite Hl. apply in_or_app. now left.
    + exists r, p. split; [| exact H].
      rewrite Hl. apply in_or_app. right. now left.
Qed.

End Tree.

End TreeFacts.

(** ** Facts about distinct artifacts *)

Module DistinctFacts.

(** A formatted index reads back as the index. *)
Lemma format_02d_parse (n : nat) :
  exists d, NilEmpty.uint_of_string (PyStr.format_02d n) = Some d /\
            Nat.of_uint d = n.
Proof.
  assert (H : exists d, NilEmpty.uint_of_string (PyStr.of_nat n) = Some d /\
                        Nat.of_uint d = n).
  { unfold PyStr.of_nat, NilZero.string_of_uint.
    pose proof (Unsigned.of_to n) as Hn.
    destruct (Nat.to_uint n) eqn:E;
      try (rewrite <- E, NilEmpty.usu; eexists; split; [reflexivity |];
           rewrite E; exact Hn).
    exists (Decimal.D0 Decimal.Nil). split; [reflexivity | exact Hn]. }
  destruct H as [d [Hd Hn]]. unfold PyStr.format_02d.
  destruct (String.length (PyStr.of_nat n) <? 2)%nat; [| now exists d].
  exists (Decimal.D0 d). split; [| exact Hn].
  cbn [String.append NilEmpty.uint_of_string]. now rewrite Hd.
Qed.

Lemma format_02d_inj (i j : nat) :
  PyStr.format_02d i = PyStr.format_02d j -> i = j.
Proof.
  intros H.
  destruct (format_02d_parse i) as [d [Hd <-]].
  destruct (format_02d_parse j) as [d' [Hd' <-]].
  rewrite H in Hd. congruence.
Qed.

Lemma NoDup_flat_map {A B : Type} (f : A -> list B) (l : list A) :
  NoDup l ->
  (forall a, In a l -> NoDup (f a)) ->
  (forall a b x, In a l -> In b l -> In x (f a) -> In x (f b) -> a = b) ->
  NoDup (flat_map f l).
Proof.
  induction l as [|a l IH]; intros Hl Hf Hd; [constructor |].
  apply NoDup_cons_iff in Hl as [Ha Hl]. cbn [flat_map].
  apply NoDup_app.
  - apply Hf. now left.
  - apply IH; [exact Hl | |].
    + intros b Hb. apply Hf. now right.
    + intros b c x Hb Hc. apply Hd; now right.
  - intros x Hx Hx'. apply in_flat_map in Hx' as [b [Hb Hxb]].
    apply Ha. rewrite (Hd a b x); try assumption; [now left | now right].
Qed.

Section Distinct.

Variable args : Args.

Ltac tail_eq H :=
  apply (LayoutFacts.join3_tail_eq args) in H;
  try reflexivity; try discriminate;
  try (now apply LayoutFacts.face_name_start);
  try (now apply LayoutFacts.full_name_start).

(** Within one image a path tells the face index. *)
Lemma face_paths_index (b x : string) (i j : nat) :
  PyStr.contains OsPath.sep b = false ->
  In x (face_artifacts args b i) -> In x (face_artifacts args b j) -> i = j.
Proof.
  intros Hb Hi Hj. unfold face_artifacts in Hi, Hj.
  destruct Hi as [<-|[<-|[<-|[]]]]; destruct Hj as [H|[H|[H|[]]]];
    tail_eq H; cbn [String.append] in H; try discriminate;
    repeat (injection H as H);
    apply StrFacts.app_inv_head in H; injection H as H;
    apply format_02d_inj;
    apply StrFacts.app_inv_tail in H; now symmetry.
Qed.

Lemma face_paths_NoDup (b : string) (i : nat) :
  PyStr.contains OsPath.sep b = false -> NoDup (face_artifacts args b i).
Proof.
  intros Hb. unfold face_artifacts.
  repeat constructor; cbn [In]; intros H;
    repeat (destruct H as [H|H]; [tail_eq H; cbn [String.append] in H; discriminate |]);
    exact H.
Qed.

Lemma full_image_not_a_face_path (b e x : string) (i : nat) :
  PyStr.contains OsPath.sep b = false ->
  In x (face_artifacts args b i) -> x <> full_image_artifact args b e.
Proof.
  intros Hb Hi Hx. unfold face_artifacts, full_image_artifact in *. subst x.
  destruct Hi as [H|[H|[H|[]]]];
    tail_eq H; cbn [String.append] in H; discriminate.
Qed.

Lemma job_artifacts_NoDup (p : string) (n : nat) (f : bool) :
  NoDup (job_artifacts args p n f).
Proof.
  assert (Hb : PyStr.contains OsPath.sep
                 (fst (OsPath.splitext (OsPath.basename p))) = false)
    by apply StrFacts.splitext_base_no_sep, StrFacts.basename_no_sep.
  unfold job_artifacts. apply NoDup_app.
  - apply NoDup_flat_map.
    + apply seq_NoDup.
    + intros i _. now apply face_paths_NoDup.
    + intros i j x _ _. now apply face_paths_index.
  - destruct f; repeat constructor. intros [].
  - intros x Hx Hf. destruct f; [| destruct Hf].
    destruct Hf as [<-|[]].
    apply in_flat_map in Hx as [i [_ Hx]].
    exact (full_image_not_a_face_path _ _ _ _ Hb Hx eq_refl).
Qed.

(** Images with distinct basenames have no artifact in common. *)
Lemma artifacts_disjoint (p1 p2 x : string) (n1 n2 : nat) (f1 f2 : bool) :
  In x (job_artifacts args p1 n1 f1) -> In x (job_artifacts args p2 n2 f2) ->
  basename_of p1 = basename_of p2.
Proof.
  intros H1 H2. unfold basename_of.
  apply LayoutFacts.artifact_form in H1 as [c1 [m1 [E1 [S1 F1]]]].
  apply LayoutFacts.artifact_form in H2 as [c2 [m2 [E2 [S2 F2]]]].
  rewrite E1 in E2. clear E1 x.
  assert (Ht : c1 ++ "/" ++ m1 = c2 ++ "/" ++ m2).
  { destruct F1 as [[-> _]|[[-> _]|[[-> _]|[-> _]]]];
      destruct F2 as [[-> _]|[[-> _]|[[-> _]|[-> _]]]];
      (apply (LayoutFacts.join3_tail_eq args); try reflexivity; try discriminate;
       assumption). }
  clear E2 S1 S2.
  destruct F1 as [[-> [i ->]]|[[-> [i ->]]|[[-> [i ->]]|[-> ->]]]];
    destruct F2 as [[-> [j ->]]|[[-> [j ->]]|[[-> [j ->]]|[-> ->]]]];
    cbn [String.append] in Ht; try discriminate;
    repeat (injection Ht as Ht); change (String "_" ?t) with ("_" ++ t) in Ht.
  - exact (LayoutFacts.face_name_cut _ _ _ _ _ Ht).
  - exact (LayoutFacts.face_name_cut _ _ _ _ _ Ht).
  - exact (LayoutFacts.face_name_cut _ _ _ _ _ Ht).
  - exact (LayoutFacts.full_name_cut args _ _ _ _ Ht).
Qed.

End Distinct.

End DistinctFacts.

(** ** Facts about the output directory *)

Module OutputFacts.

Lemma join3_trailing_sep (o cat name : string) :
  o <> "" -> PyStr.endswith o OsPath.sep = false ->
  PyStr.startswith cat OsPath.sep = false ->
  OsPath.join3 (o ++ "/") cat name = OsPath.join3 o cat name.
Proof.
  intros Ho He Hc. unfold OsPath.join3. f_equal.
  rewrite (JoinFacts.join_file o cat Ho He Hc).
  unfold OsPath.join. rewrite Hc.
  rewrite StrFacts.endswith_app by discriminate.
  cbn [PyStr.endswith]. change (Ascii.eqb "/" OsPath.sep) with true.
  rewrite orb_true_r. apply StrFacts.app_assoc.
Qed.

Section Output.

Variables (w : World) (_input o : string).
Hypothesis o_nonempty : o <> "".
Hypothesis o_plain : PyStr.endswith o OsPath.sep = false.

Lemma flat_map_pointwise {A B : Type} (f g : A -> list B) (l : list A) :
  (forall a, f a = g a) -> flat_map f l = flat_map g l.
Proof.
  intros H. induction l as [|a l IH]; [reflexivity |].
  cbn [flat_map]. now rewrite H, IH.
Qed.

Lemma job_artifacts_trailing_sep (p : string) (n : nat) (f : bool) :
  job_artifacts (main_args _input (o ++ "/")) p n f =
  job_artifacts (main_args _input o) p n f.
Proof.
  unfold job_artifacts. f_equal.
  - apply flat_map_pointwise. intros i.
    unfold face_artifacts.
    change (output (main_args _input (o ++ "/"))) with (o ++ "/").
    change (output (main_args _input o)) with o.
    now rewrite !join3_trailing_sep.
  - destruct f; [| reflexivity]. unfold full_image_artifact.
    change (output (main_args _input (o ++ "/"))) with (o ++ "/").
    change (output (main_args _input o)) with o.
    now rewrite join3_trailing_sep.
Qed.

Lemma job_trailing_sep (r : GFPGANer.t) (p : string) :
  outcome (restore_image w (main_args _input (o ++ "/")) r p) =
  outcome (restore_image w (main_args _input o) r p) /\
  written (trace (restore_image w (main_args _input (o ++ "/")) r p)) =
  written (trace (restore_image w (main_args _input o) r p)).
Proof.
  destruct (enhance w r (cv2_imread w p) false false true (1 # 2)%Q)
    as [e|[[cs rs] ri]] eqn:He.
  - rewrite (RunFacts.job_raise w (main_args _input (o ++ "/")) r p e He).
    rewrite (RunFacts.job_raise w (main_args _input o) r p e He).
    now split.
  - split.
    + rewrite (RunFacts.job_return w (main_args _input (o ++ "/")) r p cs rs ri He).
      now rewrite (RunFacts.job_return w (main_args _input o) r p cs rs ri He).
    + rewrite (LayoutFacts.job_written w (main_args _input (o ++ "/")) r p cs rs ri He).
      rewrite (LayoutFacts.job_written w (main_args _input o) r p cs rs ri He).
      apply job_artifacts_trailing_sep.
Qed.

Lemma loop_trailing_sep (r : GFPGANer.t) (l : list string) :
  outcome (restore_loop w (main_args _input (o ++ "/")) r l) =
  outcome (restore_loop w (main_args _input o) r l) /\
  written (trace (restore_loop w (main_args _input (o ++ "/")) r l)) =
  written (trace (restore_loop w (main_args _input o) r l)).
Proof.
  unfold restore_loop. generalize (@None string) as s0.
  induction l as [|p l IH]; intros s0; [now split |].
  destruct (job_trailing_sep r p) as [Ho Hw].
  destruct (restore_image w (main_args _input (o ++ "/")) r p) as [t1 [e1|n1]] eqn:E1;
    destruct (restore_image w (main_args _input o) r p) as [t2 [e2|n2]] eqn:E2;
    cbn [outcome snd trace fst] in Ho, Hw; try discriminate Ho.
  - injection Ho as ->.
    rewrite (RunFacts.loop_step_raise _ _ _ _ _ _ _ _ E1).
    rewrite (RunFacts.loop_step_raise _ _ _ _ _ _ _ _ E2).
    split; [reflexivity | exact Hw].
  - injection Ho as ->.
    rewrite (RunFacts.loop_step_ok _ _ _ _ _ _ _ _ E1).
    rewrite (RunFacts.loop_step_ok _ _ _ _ _ _ _ _ E2).
    cbn [outcome snd trace fst]. destruct (IH (Some n2)) as [IHo IHw].
    split; [exact IHo |]. now rewrite !RunFacts.written_app, Hw, IHw.
Qed.

End Output.

End OutputFacts.

(** ** Further properties of the driver *)


(** X2. The images are read in the order of the job list, each one once
    and each read followed by one call of the engine. A run that returns
    has read the whole list; a run that raises has read a prefix of it. *)
Theorem images_are_read_in_order (w : World) (args : Args) :
  match outcome (run_args w args) with
  | inr _ => reads (trace (run_args w args)) = img_list w args
  | inl _ => exists k, reads (trace (run_args w args)) = firstn k (img_list w args)
  end /\
  length (filter is_enhance (trace (run_args w args))) =
  length (reads (trace (run_args w args))).
Proof.
  destruct (BatchFacts.run_args_cases w args)
    as [[Hu ->] | [r [Hk [Hr [[Hall ->] | [before [p [after [e [Hl [Hb [Hp ->]]]]]]]]]]]];
    cbn [trace outcome fst snd];
    change (Makedirs (output args) :: ?l)%list with ([Makedirs (output args)] ++ l)%list;
    rewrite ?BatchFacts.reads_app, ?filter_app, ?length_app,
      ?BatchFacts.set_up_restorer_reads, ?BatchFacts.jobs_reads,
      ?BatchFacts.job_reads, ?BatchFacts.jobs_enhance_calls,
      ?BatchFacts.job_enhance_calls;
    rewrite (BatchFacts.filter_none is_enhance (trace (set_up_restorer w args)))
      by (rewrite BatchFacts.set_up_restorer_trace;
          destruct (_ && _); destruct (outcome (set_up_restorer w args));
          repeat constructor);
    cbn [reads flat_map filter is_enhance length app Nat.add].
  - split; [now exists 0 | reflexivity].
  - rewrite app_nil_r. split; [| lia].
    destruct (img_list w args) as [|q l]; [now exists 0 | reflexivity].
  - split; [| lia].
    exists (length (before ++ [p])). rewrite Hl.
    replace (before ++ p :: after)%list with ((before ++ [p]) ++ after)%list
      by now rewrite <- app_assoc.
    rewrite firstn_app, firstn_all, Nat.sub_diag. cbn [firstn].
    now rewrite app_nil_r.
Qed.


(** X4. One trailing ['/'] on the input changes nothing: the run on
    [d/] is the run on [d], event for event. *)
Theorem trailing_slash_on_input_is_ignored (w : World) (d _output : string) :
  PyStr.endswith d "/" = false ->
  run_main w (d ++ "/") _output = run_main w d _output.
Proof.
  intros Hd.
  assert (Hn : normalized_input (main_args (d ++ "/") _output) =
               normalized_input (main_args d _output)).
  { unfold normalized_input. cbn [input main_args]. rewrite Hd.
    rewrite StrFacts.endswith_app by discriminate. cbn [PyStr.endswith].
    change (Ascii.eqb "/" "/") with true. cbv iota.
    clear Hd. induction d as [|a d IH]; [reflexivity |].
    cbn [String.append PyStr.drop_last].
    destruct d as [|b d]; [reflexivity |].
    cbn [String.append] in IH |- *. now rewrite IH. }
  assert (Hl : img_list w (main_args (d ++ "/") _output) =
               img_list w (main_args d _output)).
  { unfold img_list. now rewrite Hn. }
  unfold run_main, run_args. rewrite Hl. reflexivity.
Qed.

Lemma trailing_slash_on_input_is_ignored_witness :
  run_main mixed_dir_world ("in" ++ "/") "out" = run_main mixed_dir_world "in" "out".
Proof.
  apply (trailing_slash_on_input_is_ignored mixed_dir_world "in" "out").
  reflexivity.
Defined.

(** X5. The job list does not depend on the order in which [glob]
    reports the entries: two environments that agree on whether the input
    is a file and whose matches are the same up to order give the same
    list of images. *)
Theorem job_order_ignores_glob_order (w1 w2 : World) (args : Args) :
  os_path_isfile w1 (normalized_input args) =
  os_path_isfile w2 (normalized_input args) ->
  Permutation (glob_glob w1 (OsPath.join (normalized_input args) "*"))
              (glob_glob w2 (OsPath.join (normalized_input args) "*")) ->
  img_list w1 args = img_list w2 args.
Proof.
  intros Hf Hp. unfold img_list. rewrite Hf.
  destruct (os_path_isfile w2 (normalized_input args)); [reflexivity |].
  now apply OrderFacts.sorted_of_permutation.
Qed.

Lemma job_order_ignores_glob_order_witness :
  img_list mixed_dir_world (main_args "in" "out") =
  img_list relisted_dir_world (main_args "in" "out").
Proof.
  apply (job_order_ignores_glob_order mixed_dir_world relisted_dir_world
           (main_args "in" "out")).
  - reflexivity.
  - apply perm_swap.
Defined.



(** On a host whose [cv2] has no writer for [.jfif], the run on a directory
    holding [a.jfif] and [b.jpg] ends at the full image of [a.jfif]: the
    three face files of [a.jfif] are written, and [b.jpg] is never read. *)
Example unwritable_extension_ends_run :
  outcome (Io.run_main png_jpg_host jfif_dir_world "in" "out") =
    inl (Cv2Error "could not find a writer for the specified extension") /\
  writes (trace (Io.run_main png_jpg_host jfif_dir_world "in" "out")) =
    [(Pixels 1, "out/cropped_faces/a_00.png");
     (Pixels 2, "out/restored_faces/a_00.png");
     (Concatenate (Pixels 1) (Pixels 2), "out/cmp/a_00.png")] /\
  reads (trace (Io.run_main png_jpg_host jfif_dir_world "in" "out")) = ["in/a.jfif"].
Proof. repeat split. Qed.

(** X7. Under the configuration of [run_main], when the iteration for an
    image runs to its end, the engine returned a full image, and the file
    name of the image has an extension, the full restored image has been
    written under [restored_imgs/] with the file name of its input. *)
Theorem restored_image_keeps_input_name (h : Io.Host) (w : World)
    (_input _output : string) (r : GFPGANer.t) (p n : string)
    (cs rs : list Image) (g : Image) :
  enhance w r (cv2_imread w p) false false true (1 # 2)%Q = inr (cs, rs, Some g) ->
  outcome (Io.restore_image h w (main_args _input _output) r p) = inr n ->
  snd (OsPath.splitext (OsPath.basename p)) <> "" ->
  In (Imwrite g (OsPath.join3 _output "restored_imgs" (OsPath.basename p)))
     (trace (Io.restore_image h w (main_args _input _output) r p)).
Proof.
  intros He Ho Hext. set (args := main_args _input _output) in *.
  apply IoFacts.in_writes.
  pose proof (IoRunFacts.within_job h w args r p _ He) as Hw.
  unfold writes_within in Hw. rewrite Ho in Hw. rewrite Hw.
  replace (OsPath.join3 _output "restored_imgs" (OsPath.basename p))
    with (full_image_artifact args (basename_of p)
            (snd (OsPath.splitext (OsPath.basename p))));
    [apply IoRunFacts.full_image_in_job_writes |].
  unfold full_image_artifact, suffix_part, basename_of.
  change (suffix args) with (@None string).
  change (ext args =? "auto") with true.
  change (output args) with _output.
  cbv iota. change ("" ++ ?x) with x.
  now rewrite (StrFacts.splitext_rejoin _ Hext).
Qed.

Lemma restored_image_keeps_input_name_witness :
  In (Imwrite (Pixels 3) "out/restored_imgs/b.jpg")
     (trace (Io.restore_image accepting_host mixed_dir_world (main_args "in" "out")
               (GFPGANer.mk "GFPGANv1.3.pth" 2 "clean" 2 None) "in/b.jpg")).
Proof.
  apply (restored_image_keeps_input_name accepting_host mixed_dir_world "in" "out"
           (GFPGANer.mk "GFPGANv1.3.pth" 2 "clean" 2 None) "in/b.jpg" "b.jpg"
           [Pixels 1] [Pixels 2] (Pixels 3)).
  - reflexivity.
  - reflexivity.
  - discriminate.
Defined.

(** X8. Two images with the same basename, such as [a.jpg] and [a.png]
    in one directory, are given the same three paths for every face index
    both have: the later image overwrites the face files of the earlier
    one. *)
Theorem same_basename_images_share_face_paths (w : World) (args : Args)
    (r : GFPGANer.t) (p1 p2 : string) (cs1 rs1 cs2 rs2 : list Image)
    (ri1 ri2 : option Image) (idx : nat) (x : string) :
  basename_of p1 = basename_of p2 ->
  enhance w r (cv2_imread w p1) (aligned args) (only_center_face args) true
    (weight args) = inr (cs1, rs1, ri1) ->
  enhance w r (cv2_imread w p2) (aligned args) (only_center_face args) true
    (weight args) = inr (cs2, rs2, ri2) ->
  idx < Nat.min (length cs1) (length rs1) ->
  idx < Nat.min (length cs2) (length rs2) ->
  In x (face_artifacts args (basename_of p1) idx) ->
  In x (written (trace (restore_image w args r p1))) /\
  In x (written (trace (restore_image w args r p2))).
Proof.
  intros Hb H1 H2 L1 L2 Hx.
  rewrite (LayoutFacts.job_written w args r p1 cs1 rs1 ri1 H1).
  rewrite (LayoutFacts.job_written w args r p2 cs2 rs2 ri2 H2).
  unfold job_artifacts. fold (basename_of p1) (basename_of p2). rewrite <- Hb.
  split; apply in_or_app; left; apply in_flat_map; exists idx;
    (split; [apply in_seq; lia | exact Hx]).
Qed.

Lemma same_basename_images_share_face_paths_witness :
  In "out/cropped_faces/a_00.png"
     (written (trace (restore_image twin_dir_world (main_args "in" "out")
                        (GFPGANer.mk "GFPGANv1.3.pth" 2 "clean" 2 None) "in/a.jpg"))) /\
  In "out/cropped_faces/a_00.png"
     (written (trace (restore_image twin_dir_world (main_args "in" "out")
                        (GFPGANer.mk "GFPGANv1.3.pth" 2 "clean" 2 None) "in/a.png"))).
Proof.
  apply (same_basename_images_share_face_paths twin_dir_world (main_args "in" "out")
           (GFPGANer.mk "GFPGANv1.3.pth" 2 "clean" 2 None) "in/a.jpg" "in/a.png"
           [Pixels 1] [Pixels 2] [Pixels 1] [Pixels 2]
           (Some (Pixels 3)) (Some (Pixels 3)) 0);
    try reflexivity; try (simpl; lia).
  vm_compute. tauto.
Defined.

(** X9. Every file a run of [run_main] writes lies directly in one of the
    four subdirectories of the output directory: its path is the output
    directory joined with [cropped_faces], [restored_faces], [cmp] or
    [restored_imgs] and a file name without separator. No image name makes
    the run write elsewhere. *)
Theorem artifacts_stay_in_output_tree (w : World) (_input _output x : string) :
  In x (written (trace (run_main w _input _output))) ->
  exists cat name,
    In cat ["cropped_faces"; "restored_faces"; "cmp"; "restored_imgs"] /\
    PyStr.contains "/" name = false /\
    x = OsPath.join3 _output cat name.
Proof.
  unfold run_main. intros H.
  apply TreeFacts.run_written_in in H as [r [p [_ H]]].
  apply TreeFacts.job_written_in in H as [n [f H]].
  apply LayoutFacts.artifact_form in H as [cat [name [Hx [_ Hf]]]].
  change (output (main_args _input _output)) with _output in Hx.
  change (suffix_part (main_args _input _output)) with "" in Hf.
  change (ext (main_args _input _output) =? "auto") with true in Hf.
  cbv iota in Hf.
  assert (Hb : PyStr.contains OsPath.sep
                 (fst (OsPath.splitext (OsPath.basename p))) = false)
    by apply StrFacts.splitext_base_no_sep, StrFacts.basename_no_sep.
  assert (He : PyStr.contains OsPath.sep
                 (PyStr.drop 1 (snd (OsPath.splitext (OsPath.basename p)))) = false)
    by apply TreeFacts.splitext_ext_no_sep, StrFacts.basename_no_sep.
  exists cat, name. split; [| split; [| exact Hx]].
  - destruct Hf as [[-> _]|[[-> _]|[[-> _]|[-> _]]]]; simpl; tauto.
  - change "/"%char with OsPath.sep.
    destruct Hf as [[_ [i ->]]|[[_ [i ->]]|[[_ [i ->]]|[_ ->]]]];
      rewrite !StrFacts.contains_app, ?Hb, ?He, ?TreeFacts.format_02d_no_sep;
      reflexivity.
Qed.

Lemma artifacts_stay_in_output_tree_witness :
  exists cat name,
    In cat ["cropped_faces"; "restored_faces"; "cmp"; "restored_imgs"] /\
    PyStr.contains "/" name = false /\
    "output/cmp/portrait_00.png" = OsPath.join3 "output" cat name.
Proof.
  apply (artifacts_stay_in_output_tree portrait_world "portrait.jpg" "output").
  vm_compute. tauto.
Defined.

(** X10. The files written for one image are pairwise distinct: the
    faces of an image never overwrite each other, whatever their number
    (indices from 100 on get three digits), and the full image never takes
    the place of a face file. *)
Theorem image_artifacts_are_distinct (w : World) (args : Args) (r : GFPGANer.t)
    (p : string) :
  NoDup (written (trace (restore_image w args r p))).
Proof.
  destruct (enhance w r (cv2_imread w p) (aligned args) (only_center_face args)
              true (weight args)) as [e|[[cs rs] ri]] eqn:He.
  - rewrite (RunFacts.job_raise _ _ _ _ _ He). constructor.
  - rewrite (LayoutFacts.job_written _ _ _ _ _ _ _ He).
    apply DistinctFacts.job_artifacts_NoDup.
Qed.

(** X11. A batch whose images have pairwise distinct basenames writes no
    path twice, however the run ends: no file of the run is overwritten by
    the run itself. *)
Theorem distinct_basenames_never_overwrite (w : World) (args : Args) :
  NoDup (map basename_of (img_list w args)) ->
  NoDup (written (trace (run_args w args))).
Proof.
  intros Hnd.
  assert (Hjobs : forall r l,
             NoDup (map basename_of l) ->
             NoDup (flat_map (fun p => written (trace (restore_image w args r p))) l)).
  { intros r l Hl. apply DistinctFacts.NoDup_flat_map.
    - now apply NoDup_map_inv in Hl.
    - intros p _.
      destruct (enhance w r (cv2_imread w p) (aligned args) (only_center_face args)
                  true (weight args)) as [e|[[cs rs] ri]] eqn:He.
      + rewrite (RunFacts.job_raise _ _ _ _ _ He). constructor.
      + rewrite (LayoutFacts.job_written _ _ _ _ _ _ _ He).
        apply DistinctFacts.job_artifacts_NoDup.
    - intros p q x Hp Hq Hx Hy.
      apply TreeFacts.job_written_in in Hx as [n1 [f1 Hx]].
      apply TreeFacts.job_written_in in Hy as [n2 [f2 Hy]].
      pose proof (DistinctFacts.artifacts_disjoint args _ _ _ _ _ _ _ Hx Hy) as Hb.
      clear Hx Hy. induction l as [|a l IH]; [destruct Hp |].
      cbn [map] in Hl. apply NoDup_cons_iff in Hl as [Ha Hl].
      destruct Hp as [->|Hp]; destruct Hq as [->|Hq]; try reflexivity.
      + exfalso. apply Ha. rewrite Hb. now apply in_map.
      + exfalso. apply Ha. rewrite <- Hb. now apply in_map.
      + now apply IH. }
  pose proof (RunFacts.set_up_restorer_written w args) as Hs.
  destruct (BatchFacts.run_args_cases w args)
    as [[Hu ->] | [r [Hk [Hr [[Hall ->] | [before [p [after [e [Hl [Hb [Hp ->]]]]]]]]]]]];
    cbn [trace fst];
    change (Makedirs (output args) :: ?l)%list with ([Makedirs (output args)] ++ l)%list;
    rewrite ?RunFacts.written_app, ?Hs, ?BatchFacts.written_flat_map;
    cbn [written flat_map app]; rewrite ?app_nil_r.
  - constructor.
  - now apply Hjobs.
  - rewrite (RunFacts.job_raise _ _ _ _ _ (BatchFacts.job_outcome_raise _ _ _ _ _ Hp)).
    cbn [trace fst written flat_map app]. rewrite app_nil_r.
    apply Hjobs. rewrite Hl, map_app in Hnd.
    now apply NoDup_app_remove_r in Hnd.
Qed.

Lemma distinct_basenames_never_overwrite_witness :
  NoDup (written (trace (run_args pair_dir_world (main_args "in" "out")))).
Proof.
  apply (distinct_basenames_never_overwrite pair_dir_world (main_args "in" "out")).
  vm_compute. repeat constructor; cbn [In]; intros H;
    repeat (destruct H as [H|H]; [discriminate |]); exact H.
Defined.

(** X12. Two different known versions never resolve to the same weights:
    whatever files exist, their model paths differ. *)
Theorem versions_resolve_to_distinct_weights (w : World) (args1 args2 : Args)
    (c1 c2 : ModelChoice) :
  choose_model args1 = ([], inr c1) ->
  choose_model args2 = ([], inr c2) ->
  version args1 <> version args2 ->
  determine_model_path w c1 <> determine_model_path w c2.
Proof.
  intros H1 H2 Hv.
  unfold choose_model, ret, raise in H1, H2.
  repeat match type of H1 with
         | context [String.eqb ?a ?b] =>
             destruct (String.eqb_spec a b); cbv iota in H1
         end; try discriminate H1;
  repeat match type of H2 with
         | context [String.eqb ?a ?b] =>
             destruct (String.eqb_spec a b); cbv iota in H2
         end; try discriminate H2;
  try congruence;
  injection H1 as <-; injection H2 as <-;
  rewrite !RunFacts.determine_model_path_order by reflexivity;
  unfold cache_path, weights_path; cbn [model_name url String.append];
  repeat match goal with
         | |- context [os_path_isfile w ?p] => destruct (os_path_isfile w p)
         end;
  discriminate.
Qed.

Lemma versions_resolve_to_distinct_weights_witness :
  determine_model_path portrait_world
    {| arch := "clean"; channel_multiplier := 2; model_name := "GFPGANv1.3";
       url := "https://github.com/TencentARC/GFPGAN/releases/download/v1.3.0/GFPGANv1.3.pth" |} <>
  determine_model_path portrait_world
    {| arch := "clean"; channel_multiplier := 2; model_name := "GFPGANv1.4";
       url := "https://github.com/TencentARC/GFPGAN/releases/download/v1.3.0/GFPGANv1.4.pth" |}.
Proof.
  apply (versions_resolve_to_distinct_weights portrait_world
           (main_args "portrait.jpg" "output") v14_args);
    [reflexivity | reflexivity | discriminate].
Defined.

(** X13. One trailing ['/'] on the output directory does not change the
    files that are written: the run on [o/] writes the same paths as the
    run on [o]. It ends the same way, too, except that the returned string
    then has the doubled separator of [o//restored_imgs/...]. *)
Theorem trailing_slash_on_output_keeps_artifacts (w : World) (_input o : string) :
  o <> "" -> PyStr.endswith o "/" = false ->
  written (trace (run_main w _input (o ++ "/"))) =
  written (trace (run_main w _input o)) /\
  match outcome (run_main w _input (o ++ "/")), outcome (run_main w _input o) with
  | inr p1, inr p2 =>
      exists n, p1 = (o ++ "/") ++ "/restored_imgs/" ++ n /\
                p2 = o ++ "/restored_imgs/" ++ n
  | inl e1, inl e2 => e1 = e2
  | _, _ => False
  end.
Proof.
  intros Ho He. unfold run_main.
  assert (Hs' : set_up_restorer w (main_args _input (o ++ "/")) =
                set_up_restorer w (main_args _input o)) by reflexivity.
  pose proof (RunFacts.set_up_restorer_written w (main_args _input o)) as Hw0.
  destruct (set_up_restorer w (main_args _input o)) as [t0 [e|r0]] eqn:Hs;
    cbn [trace fst] in Hw0.
  - rewrite (RunFacts.run_args_setup_raises _ _ _ _ Hs).
    rewrite (RunFacts.run_args_setup_raises _ _ _ _ Hs').
    now split.
  - rewrite (RunFacts.run_args_after_setup _ _ _ _ Hs).
    rewrite (RunFacts.run_args_after_setup _ _ _ _ Hs').
    change (img_list w (main_args _input (o ++ "/")))
      with (img_list w (main_args _input o)).
    destruct (OutputFacts.loop_trailing_sep w _input o Ho He r0
                (img_list w (main_args _input o))) as [Hlo Hlw].
    cbn [trace outcome fst snd].
    change (Makedirs ?d :: ?l)%list with ([Makedirs d] ++ l)%list.
    rewrite !RunFacts.written_app, Hw0, Hlw, Hlo.
    destruct (outcome (restore_loop w (main_args _input o) r0
                         (img_list w (main_args _input o)))) as [e|[n|]].
    + now split.
    + split; [reflexivity |]. now exists n.
    + now split.
Qed.

Lemma trailing_slash_on_output_keeps_artifacts_witness :
  written (trace (run_main portrait_world "portrait.jpg" ("out" ++ "/"))) =
  written (trace (run_main portrait_world "portrait.jpg" "out")).
Proof.
  apply (trailing_slash_on_output_keeps_artifacts portrait_world "portrait.jpg" "out");
    [discriminate | reflexivity].
Defined.
